(** * Trading platform: position ledger and trade execution

    A shallow embedding of [server/database.py] (the SQLite-backed store)
    and of the trade handler of [server/app.py], with the properties of
    the trade engine, the position book, the price store and the
    transaction log stated over it.

    Modelling conventions.
    - A SQLite [REAL] column and a Python [float] are an exact rational
      ([Qc], canonical rationals, so that equality is Leibniz equality).
      Rounding, infinities and NaN are outside the model.
    - A table with an [INTEGER PRIMARY KEY AUTOINCREMENT] is a finite map
      from the row id to the row, next to the counter that SQLite keeps
      for the table.  [positions] carries [UNIQUE(user_id, resource_id)]
      and every statement of the program addresses it through that pair,
      so it is keyed by the pair.  [transactions] is the list of rows in
      insertion (rowid) order.  The key columns of a row are the key of
      the map and are not repeated in the row record.
    - [CURRENT_TIMESTAMP] and [datetime.utcnow()] are read from a clock
      that is an input of each operation ([now], in seconds).
    - The counter of a table is the largest id given in it so far; a new
      row takes the next one.
    - Every method of [Database] opens its own connection and commits
      before it returns: a method that cannot raise is a function on the
      store, one that can is a computation [M] that leaves the store as it
      was when it raises, and a caller that raises after a method returned
      keeps the effect of that method.
    - The handlers of [app.py] are modelled as the functions they are,
      after the request body has been read into a record; the set-up of
      the application around them is outside the model. *)

From Stdlib Require Import QArith Qcanon Lqa Sorted Permutation Ascii String.
From stdpp Require Import base numbers strings list gmap.

Local Open Scope string_scope.
Local Open Scope Qc_scope.

(** ** Numbers *)

Abbreviation real := Qc (only parsing).

Definition real_of_Z (z : Z) : real := Qc_of_Z z.

(** ** Tables *)

Record user_row := {
  u_username : string;
  u_email : string;
  u_hashed_password : string;
  u_balance : real;
  u_created_at : nat }.

Record resource_row := {
  r_symbol : string;
  r_name : string;
  r_current_price : real;
  r_volatility : real;
  r_last_updated : nat }.

Record position_row := {
  p_id : nat;
  p_quantity : real;
  p_average_price : real;
  p_created_at : nat }.

Record transaction_row := {
  t_id : nat;
  t_user_id : nat;
  t_resource_id : nat;
  t_transaction_type : string;
  t_quantity : real;
  t_price : real;
  t_total_value : real;
  t_timestamp : nat }.

Global Instance user_row_eq_dec : EqDecision user_row.
Proof. solve_decision. Defined.
Global Instance resource_row_eq_dec : EqDecision resource_row.
Proof. solve_decision. Defined.
Global Instance position_row_eq_dec : EqDecision position_row.
Proof. solve_decision. Defined.
Global Instance transaction_row_eq_dec : EqDecision transaction_row.
Proof. solve_decision. Defined.

Record db := {
  users : gmap nat user_row;
  users_seq : nat;
  resources : gmap nat resource_row;
  resources_seq : nat;
  positions : gmap (nat * nat) position_row;
  positions_seq : nat;
  transactions : list transaction_row;
  transactions_seq : nat }.

Global Instance db_eq_dec : EqDecision db.
Proof. solve_decision. Defined.

Definition set_users (f : gmap nat user_row → gmap nat user_row) (s : db) : db :=
  {| users := f (users s); users_seq := users_seq s;
     resources := resources s; resources_seq := resources_seq s;
     positions := positions s; positions_seq := positions_seq s;
     transactions := transactions s; transactions_seq := transactions_seq s |}.

Definition set_resources (f : gmap nat resource_row → gmap nat resource_row) (s : db) : db :=
  {| users := users s; users_seq := users_seq s;
     resources := f (resources s); resources_seq := resources_seq s;
     positions := positions s; positions_seq := positions_seq s;
     transactions := transactions s; transactions_seq := transactions_seq s |}.

Definition set_positions
    (f : gmap (nat * nat) position_row → gmap (nat * nat) position_row) (s : db) : db :=
  {| users := users s; users_seq := users_seq s;
     resources := resources s; resources_seq := resources_seq s;
     positions := f (positions s); positions_seq := positions_seq s;
     transactions := transactions s; transactions_seq := transactions_seq s |}.

(** The empty store, as [init_database] leaves it before the bootstrap rows. *)
Definition empty_db : db :=
  {| users := ∅; users_seq := 0; resources := ∅; resources_seq := 0;
     positions := ∅; positions_seq := 0; transactions := []; transactions_seq := 0 |}.

(** ** Errors *)

Inductive exn :=
  | HTTPException (status_code : nat) (detail : string)
  | ValueError (msg : string)
  | TypeError (msg : string)
  | IndexError (msg : string)
  | OperationalError (msg : string).

Inductive result (A : Type) :=
  | Ok (a : A)
  | Raise (e : exn).
Arguments Ok {A} a.
Arguments Raise {A} e.

Global Instance exn_eq_dec : EqDecision exn.
Proof. solve_decision. Defined.
Global Instance result_eq_dec {A} `{EqDecision A} : EqDecision (result A).
Proof. solve_decision. Defined.

(** [str(e)] for the exceptions that reach an [except Exception as e]. *)
Definition exn_str (e : exn) : string :=
  match e with
  | HTTPException _ d => d
  | ValueError m | TypeError m | IndexError m | OperationalError m => m
  end.

(** Computations on the store: they read and change it and may raise. The
    store that a raising computation leaves is the store at the point of
    the raise: whatever was committed before stays. *)
Definition M (A : Type) : Type := db → result A * db.

Definition ret {A} (a : A) : M A := λ s, (Ok a, s).
Definition raise {A} (e : exn) : M A := λ s, (Raise e, s).
Definition bind {A B} (m : M A) (k : A → M B) : M B :=
  λ s, match m s with
       | (Ok a, s') => k a s'
       | (Raise e, s') => (Raise e, s')
       end.

Notation "x <- m ;; k" := (bind m (λ x, k))
  (at level 100, m at next level, right associativity).

(** A statement that reads, and a statement that writes. *)
Definition query {A} (f : db → A) : M A := λ s, (Ok (f s), s).
Definition execute (f : db → db) : M unit := λ s, (Ok tt, f s).

(** [try: ...; conn.commit() finally: conn.close()]: what the statements
    wrote is kept when the body reaches the commit and dropped when it
    raises before. *)
Definition with_connection {A} (m : M A) : M A :=
  λ s, match m s with
       | (Ok a, s') => (Ok a, s')
       | (Raise e, _) => (Raise e, s)
       end.

(** [row[key]] on a [sqlite3.Row]: the row answers for the columns of its
    [SELECT] and raises [IndexError] for any other name. *)
Definition row_subscript {A} (columns : list string) (key : string) (value : A) : M A :=
  if bool_decide (key ∈ columns) then ret value
  else raise (IndexError "No item with that key").

(** ** User operations *)

(** [Database.create_user]: the [INSERT] fails on the [UNIQUE] columns
    [username] and [email] with [sqlite3.IntegrityError], which the method
    turns into a [ValueError]; nothing is committed then. The balance of
    the new row is the literal [10000.0] of the statement. *)
Definition create_user (now : nat) (username email password_hash : string) (s : db)
    : result nat * db :=
  if bool_decide (map_Exists (λ _ u, u_username u = username ∨ u_email u = email) (users s))
  then (Raise (ValueError "User with this username or email already exists"), s)
  else
    let user_id := S (users_seq s) in
    let row := {| u_username := username; u_email := email;
                  u_hashed_password := password_hash;
                  u_balance := real_of_Z 10000; u_created_at := now |} in
    (Ok user_id,
     {| users := <[user_id := row]> (users s); users_seq := user_id;
        resources := resources s; resources_seq := resources_seq s;
        positions := positions s; positions_seq := positions_seq s;
        transactions := transactions s; transactions_seq := transactions_seq s |}).

Definition get_user_by_id (user_id : nat) (s : db) : option user_row :=
  users s !! user_id.

Definition get_user_by_username (username : string) (s : db) : option (nat * user_row) :=
  snd <$> list_find (λ kv, u_username (snd kv) = username) (map_to_list (users s)).

Definition with_balance (u : user_row) (new_balance : real) : user_row :=
  {| u_username := u_username u; u_email := u_email u;
     u_hashed_password := u_hashed_password u;
     u_balance := new_balance; u_created_at := u_created_at u |}.

(** [UPDATE users SET balance = ? WHERE id = ?]: no row, no change. *)
Definition update_user_balance (user_id : nat) (new_balance : real) (s : db) : db :=
  match users s !! user_id with
  | Some u => set_users (insert user_id (with_balance u new_balance)) s
  | None => s
  end.

(** ** Resource operations *)

(** The row that [get_resource_by_symbol] returns, with its [id] column. *)
Definition get_resource_by_symbol (symbol : string) (s : db) : option (nat * resource_row) :=
  snd <$> list_find (λ kv, r_symbol (snd kv) = symbol) (map_to_list (resources s)).

Definition with_price (r : resource_row) (new_price : real) (now : nat) : resource_row :=
  {| r_symbol := r_symbol r; r_name := r_name r;
     r_current_price := new_price; r_volatility := r_volatility r;
     r_last_updated := now |}.

(** [Database.update_resource_price]: a bare [UPDATE] of [current_price]
    and [last_updated] for the row with that id. *)
Definition update_resource_price (now : nat) (resource_id : nat) (new_price : real) (s : db) : db :=
  match resources s !! resource_id with
  | Some r => set_resources (insert resource_id (with_price r new_price now)) s
  | None => s
  end.

(** ** Position operations *)

(** The row of [get_position]: the position joined with its resource. *)
Record position_view := {
  pv_position : position_row;
  pv_symbol : string;
  pv_name : string;
  pv_current_price : real }.

Definition get_position (user_id resource_id : nat) (s : db) : option position_view :=
  p ← positions s !! (user_id, resource_id);
  r ← resources s !! resource_id;
  Some {| pv_position := p; pv_symbol := r_symbol r; pv_name := r_name r;
          pv_current_price := r_current_price r |}.

(** [Database.create_or_update_position]. The first statement is
    [SELECT id, quantity FROM positions ...]: [existing] answers for these
    two columns. *)
Definition create_or_update_position (now : nat) (user_id resource_id : nat)
    (quantity average_price : real) : M unit :=
  with_connection (
    existing <- query (λ s, positions s !! (user_id, resource_id)) ;;
    match existing with
    | Some existing =>
        let selected := ["id"; "quantity"] in
        existing_quantity <- row_subscript selected "quantity" (p_quantity existing) ;;
        let new_quantity := existing_quantity + quantity in
        if decide (new_quantity ≤ 0) then
          execute (set_positions (delete (user_id, resource_id)))
        else
          existing_quantity <- row_subscript selected "quantity" (p_quantity existing) ;;
          existing_average_price <-
            row_subscript selected "average_price" (p_average_price existing) ;;
          let total_value :=
            existing_quantity * existing_average_price + quantity * average_price in
          let new_avg_price := total_value / new_quantity in
          execute (set_positions (insert (user_id, resource_id)
            {| p_id := p_id existing;
               p_quantity := new_quantity; p_average_price := new_avg_price;
               p_created_at := p_created_at existing |}))
    | None =>
        execute (λ s,
          {| users := users s; users_seq := users_seq s;
             resources := resources s; resources_seq := resources_seq s;
             positions :=
               <[(user_id, resource_id) :=
                   {| p_id := S (positions_seq s);
                      p_quantity := quantity; p_average_price := average_price;
                      p_created_at := now |}]> (positions s);
             positions_seq := S (positions_seq s);
             transactions := transactions s; transactions_seq := transactions_seq s |})
    end).

(** ** Transaction operations *)

Definition create_transaction (now : nat) (user_id resource_id : nat)
    (transaction_type : string) (quantity price total_value : real) (s : db) : nat * db :=
  let transaction_id := S (transactions_seq s) in
  let row := {| t_id := transaction_id; t_user_id := user_id; t_resource_id := resource_id;
                t_transaction_type := transaction_type; t_quantity := quantity;
                t_price := price; t_total_value := total_value; t_timestamp := now |} in
  (transaction_id,
   {| users := users s; users_seq := users_seq s;
      resources := resources s; resources_seq := resources_seq s;
      positions := positions s; positions_seq := positions_seq s;
      transactions := transactions s ++ [row]; transactions_seq := transaction_id |}).

(** The row of [get_user_transactions]: the transaction joined with its
    resource. *)
Record transaction_view := {
  tv_transaction : transaction_row;
  tv_symbol : string;
  tv_name : string }.

(** [FROM transactions t INNER JOIN resources r ON t.resource_id = r.id
    WHERE t.user_id = ?]: the rows of the user, in rowid order, each with
    the resource it names; a row whose resource is missing has no partner
    in the join. *)
Definition join_resource (s : db) (t : transaction_row) : option transaction_view :=
  r ← resources s !! t_resource_id t;
  Some {| tv_transaction := t; tv_symbol := r_symbol r; tv_name := r_name r |}.

Definition user_transactions (user_id : nat) (s : db) : list transaction_row :=
  filter (λ t, t_user_id t = user_id) (transactions s).

Definition select_user_transactions (user_id : nat) (s : db) : list transaction_view :=
  omap (join_resource s) (user_transactions user_id s).

Definition tv_timestamp (v : transaction_view) : nat := t_timestamp (tv_transaction v).



Section TransactionLog.
Variable order_by_timestamp_desc : list transaction_view → list transaction_view.

(** [Database.get_user_transactions]. *)
Definition get_user_transactions (user_id : nat) (s : db) : list transaction_view :=
  order_by_timestamp_desc (select_user_transactions user_id s).
End TransactionLog.

(** Two sorts that meet the contract. Both insert the rows from the last
    to the first; [insert_desc true] puts a row before the rows of the same
    timestamp already placed, [insert_desc false] after them. *)
Fixpoint insert_desc (before_ties : bool) (v : transaction_view) (l : list transaction_view)
    : list transaction_view :=
  match l with
  | [] => [v]
  | w :: l' =>
      if (if before_ties then tv_timestamp w <=? tv_timestamp v
          else tv_timestamp w <? tv_timestamp v)%nat
      then v :: w :: l'
      else w :: insert_desc before_ties v l'
  end.

(** Rows of equal timestamp keep the order of the input. *)
Definition sort_desc_stable (l : list transaction_view) : list transaction_view :=
  foldr (insert_desc true) [] l.

(** Rows of equal timestamp come out in the reverse order of the input. *)
Definition sort_desc_reversing (l : list transaction_view) : list transaction_view :=
  foldr (insert_desc false) [] l.

(** ** The trade handler *)

(** The calls of [execute_trade] into the store, in program order. *)
Inductive call_site :=
  | CGetUser | CGetResource | CGetPosition
  | CUpdateBalance | CUpdatePosition | CCreateTransaction | CGetUpdatedUser.

Global Instance call_site_eq_dec : EqDecision call_site.
Proof. solve_decision. Defined.

(** Which calls fail in the storage layer, and with which message. A call
    that fails raises [sqlite3.OperationalError] out of the method; its own
    statement is not committed. *)
Definition fault_plan : Type := call_site → option string.

Definition no_faults : fault_plan := λ _, None.

Section Handler.
Variable faults : fault_plan.

Definition db_call {A} (c : call_site) (m : M A) : M A :=
  λ s, match faults c with
       | Some msg => (Raise (OperationalError msg), s)
       | None => m s
       end.

Definition db_read {A} (c : call_site) (f : db → A) : M A := db_call c (query f).

Definition db_write (c : call_site) (f : db → db) : M unit := db_call c (execute f).

Definition db_insert {A} (c : call_site) (f : db → A * db) : M A :=
  db_call c (λ s, let '(a, s') := f s in (Ok a, s')).
End Handler.

(** [user_data['balance']], where [user_data] may be [None]. *)
Definition subscript_balance (user_data : option user_row) : M real :=
  match user_data with
  | Some u => ret (u_balance u)
  | None => raise (TypeError "'NoneType' object is not subscriptable")
  end.

(** [str.lower] on the ASCII letters. *)
Definition lower_ascii (c : ascii) : ascii :=
  let n := nat_of_ascii c in
  if ((65 <=? n) && (n <=? 90))%nat then ascii_of_nat (n + 32) else c.

Fixpoint lower (s : string) : string :=
  match s with
  | EmptyString => EmptyString
  | String c r => String (lower_ascii c) (lower r)
  end.

(** The body of the request, after [float(...)] has read the quantity. *)
Record trade_request := {
  trade_type : string;
  resource_symbol : string;
  quantity : real }.

Record trade_response := {
  message : string;
  transaction_id : nat;
  balance : real }.

Global Instance trade_response_eq_dec : EqDecision trade_response.
Proof. solve_decision. Defined.

(** The errors of the handler, under the names of the specification. *)
Definition InvalidTradeType : exn :=
  HTTPException 400 "trade_type must be 'buy' or 'sell'".
Definition InvalidArgument : exn :=
  HTTPException 400 "resource_symbol and quantity are required".
Definition ResourceNotFound : exn := HTTPException 404 "Resource not found".
Definition InsufficientFunds : exn := HTTPException 400 "Insufficient balance".
Definition InsufficientQuantity : exn := HTTPException 400 "Insufficient quantity to sell".

(** The two handlers that close [execute_trade]: an [HTTPException] passes,
    any other exception becomes status 500 with [str(e)] as detail. *)
Definition except_handlers {A} (m : M A) : M A :=
  λ s, match m s with
       | (Ok a, s') => (Ok a, s')
       | (Raise (HTTPException c d), s') => (Raise (HTTPException c d), s')
       | (Raise e, s') => (Raise (HTTPException 500 (exn_str e)), s')
       end.

Definition execute_trade (faults : fault_plan) (now : nat) (user_id : nat)
    (trade_data : trade_request) : M trade_response :=
  except_handlers (
    let trade_type := lower (trade_type trade_data) in
    let resource_symbol := resource_symbol trade_data in
    let quantity := quantity trade_data in
    if negb (bool_decide (trade_type ∈ ["buy"; "sell"])) then raise InvalidTradeType
    else if bool_decide (resource_symbol = "") || bool_decide (quantity ≤ 0)
    then raise InvalidArgument
    else
      user_data <- db_read faults CGetUser (get_user_by_id user_id) ;;
      resource <- db_read faults CGetResource (get_resource_by_symbol resource_symbol) ;;
      match resource with
      | None => raise ResourceNotFound
      | Some (resource_id, resource) =>
          let price := r_current_price resource in
          let total_value := quantity * price in
          _ <- (if bool_decide (trade_type = "buy") then
                  balance <- subscript_balance user_data ;;
                  if bool_decide (balance < total_value) then raise InsufficientFunds
                  else
                    let new_balance := balance - total_value in
                    _ <- db_write faults CUpdateBalance
                           (update_user_balance user_id new_balance) ;;
                    db_call faults CUpdatePosition
                      (create_or_update_position now user_id resource_id quantity price)
                else
                  position <- db_read faults CGetPosition (get_position user_id resource_id) ;;
                  if match position with
                     | None => true
                     | Some position =>
                         bool_decide (p_quantity (pv_position position) < quantity)
                     end
                  then raise InsufficientQuantity
                  else
                    balance <- subscript_balance user_data ;;
                    let new_balance := balance + total_value in
                    _ <- db_write faults CUpdateBalance
                           (update_user_balance user_id new_balance) ;;
                    db_call faults CUpdatePosition
                      (create_or_update_position now user_id resource_id (- quantity) price)) ;;
          transaction_id <- db_insert faults CCreateTransaction
            (create_transaction now user_id resource_id trade_type quantity price total_value) ;;
          updated_user <- db_read faults CGetUpdatedUser (get_user_by_id user_id) ;;
          balance <- subscript_balance updated_user ;;
          ret {| message := "Trade executed successfully";
                 transaction_id := transaction_id;
                 balance := balance |}
      end).

(** ** The registration handler *)

Record register_request := {
  rq_username : string;
  rq_email : string;
  rq_password : string }.

Record register_response := {
  rr_message : string;
  rr_token : string;
  rr_id : nat;
  rr_username : string;
  rr_email : string;
  rr_balance : real }.

Section Register.
(** [str.strip], [auth.hash_password] and [auth.generate_token]: functions
    of the libraries, taken as they come. *)
Variables (strip : string → string) (hash_password : string → string)
  (generate_token : nat → string → string).

(** [register]: a [ValueError] of [create_user] becomes status 400. *)
Definition register (now : nat) (request_data : register_request) : M register_response :=
  λ s,
  let username := strip (rq_username request_data) in
  let email := strip (rq_email request_data) in
  let password := rq_password request_data in
  if bool_decide (username = "") || bool_decide (email = "") || bool_decide (password = "")
  then (Raise (HTTPException 400 "Username, email, and password are required"), s)
  else
    match get_user_by_username username s with
    | Some _ => (Raise (HTTPException 400 "Username already registered"), s)
    | None =>
        let password_hash := hash_password password in
        match create_user now username email password_hash s with
        | (Raise e, s') => (Raise (HTTPException 400 (exn_str e)), s')
        | (Ok user_id, s') =>
            let token := generate_token user_id username in
            match get_user_by_id user_id s' with
            | None => (Raise (HTTPException 500 "Internal server error"), s')
            | Some user_data =>
                (Ok {| rr_message := "User created successfully"; rr_token := token;
                       rr_id := user_id; rr_username := u_username user_data;
                       rr_email := u_email user_data;
                       rr_balance := u_balance user_data |}, s')
            end
        end
    end.
End Register.

(** ** The login handler *)

Record login_request := {
  lq_username : string;
  lq_password : string }.

Record login_response := {
  lr_message : string;
  lr_access_token : string;
  lr_token_type : string;
  lr_id : nat;
  lr_username : string;
  lr_email : string;
  lr_balance : real }.

Section Login.
(** [str.strip], [auth.verify_password] (which raises on a hash that bcrypt
    cannot read) and [auth.generate_token], taken as they come. *)
Variables (strip : string → string) (verify_password : string → string → result bool)
  (generate_token : nat → string → string).

(** [login]: an unknown name and a wrong password raise the same
    [HTTPException]; any other exception becomes status 500. *)
Definition login (request_data : login_request) : M login_response :=
  λ s,
  let username := strip (lq_username request_data) in
  let password := lq_password request_data in
  match get_user_by_username username s with
  | None => (Raise (HTTPException 401 "Incorrect username or password"), s)
  | Some (user_id, user) =>
      match verify_password password (u_hashed_password user) with
      | Raise (HTTPException c d) => (Raise (HTTPException c d), s)
      | Raise _ => (Raise (HTTPException 500 "Internal server error"), s)
      | Ok false => (Raise (HTTPException 401 "Incorrect username or password"), s)
      | Ok true =>
          let token := generate_token user_id username in
          (Ok {| lr_message := "Login successful"; lr_access_token := token;
                 lr_token_type := "bearer"; lr_id := user_id;
                 lr_username := u_username user; lr_email := u_email user;
                 lr_balance := u_balance user |}, s)
      end
  end.
End Login.

(** Stand-ins for the library functions, for the examples: no stripping, a
    hash that prefixes the password, a token that is the user name. *)
Definition demo_hash (password : string) : string := "h:" +:+ password.
Definition demo_verify (password hashed : string) : result bool :=
  Ok (bool_decide (hashed = demo_hash password)).
Definition demo_token (user_id : nat) (username : string) : string := username.

(** A running system: trades and price updates, one after the other. *)
Inductive event :=
  | ETrade (faults : fault_plan) (now : nat) (user_id : nat) (trade_data : trade_request)
  | EPrice (now : nat) (resource_id : nat) (new_price : real).

Definition step (e : event) (s : db) : db :=
  match e with
  | ETrade faults now user_id trade_data => snd (execute_trade faults now user_id trade_data s)
  | EPrice now resource_id new_price => update_resource_price now resource_id new_price s
  end.

Definition run (es : list event) (s : db) : db := foldl (λ s e, step e s) s es.

(** A fixture: the bootstrap resource [ENG] at 100 and one registered user. *)
Definition demo_db : db :=
  let s := snd (create_user 0 "testuser" "test@example.com" "hash" empty_db) in
  {| users := users s; users_seq := users_seq s;
     resources := {[ 1%nat := {| r_symbol := "ENG"; r_name := "Energy Units";
                                 r_current_price := real_of_Z 100;
                                 r_volatility := Q2Qc (3 # 100); r_last_updated := 0 |} ]};
     resources_seq := 1;
     positions := positions s; positions_seq := positions_seq s;
     transactions := transactions s; transactions_seq := transactions_seq s |}.

Definition buy (q : Z) : trade_request :=
  {| trade_type := "buy"; resource_symbol := "ENG"; quantity := real_of_Z q |}.
Definition sell (q : Z) : trade_request :=
  {| trade_type := "sell"; resource_symbol := "ENG"; quantity := real_of_Z q |}.

(** ** Fills against the position book *)

(** One call of [create_or_update_position]: a signed quantity at a price. *)
Record fill := {
  f_user : nat;
  f_resource : nat;
  f_quantity : real;
  f_price : real;
  f_now : nat }.

(** The book after the call, whether it returned or raised. *)
Definition apply_fill (f : fill) (s : db) : db :=
  snd (create_or_update_position (f_now f) (f_user f) (f_resource f)
         (f_quantity f) (f_price f) s).

Definition apply_fills (fs : list fill) (s : db) : db := foldl (λ s f, apply_fill f s) s fs.

(** The signed sum of the fills of one (user, resource) pair. *)
Fixpoint fill_sum (k : nat * nat) (fs : list fill) : real :=
  match fs with
  | [] => 0
  | f :: fs' =>
      (if bool_decide ((f_user f, f_resource f) = k) then f_quantity f else 0) + fill_sum k fs'
  end.

(** The quantity held for a pair: that of its record, zero without one. *)
Definition held (s : db) (k : nat * nat) : real :=
  match positions s !! k with
  | Some p => p_quantity p
  | None => 0
  end.

(** The law of the position book as the specification words it, for one
    sequence of fills from the empty book. *)
Definition position_sum_law (fs : list fill) : Prop :=
  ∀ k : nat * nat,
    (fill_sum k fs ≤ 0 → positions (apply_fills fs empty_db) !! k = None) ∧
    (0 < fill_sum k fs →
       ∃ p, positions (apply_fills fs empty_db) !! k = Some p ∧ p_quantity p = fill_sum k fs).

(** A fill that opens a position (a positive quantity for a pair without
    a record) or closes one (a sell of exactly the quantity held). *)
Definition fill_ok (f : fill) (s : db) : bool :=
  match positions s !! (f_user f, f_resource f) with
  | None => bool_decide (0 < f_quantity f)
  | Some p => bool_decide (f_quantity f = - p_quantity p)
  end.

Fixpoint fills_ok (fs : list fill) (s : db) : bool :=
  match fs with
  | [] => true
  | f :: fs' => fill_ok f s && fills_ok fs' (apply_fill f s)
  end.

(** No record of the book holds a quantity of zero or less. *)
Definition positions_positive (s : db) : Prop :=
  ∀ k p, positions s !! k = Some p → 0 < p_quantity p.

(** The storage steps of an order that passed every check, stage by stage:
    the store after the balance update, after the position update, and
    after the transaction insert; a call that raises stops the handler at
    the stage reached, with status 500. *)
Definition commit (faults : fault_plan) (now user_id resource_id : nat) (trade_type : string)
    (signed_quantity quantity price new_balance : real) (s : db) : result trade_response * db :=
  match faults CUpdateBalance with
  | Some msg => (Raise (HTTPException 500 msg), s)
  | None =>
      let s1 := update_user_balance user_id new_balance s in
      match db_call faults CUpdatePosition
              (create_or_update_position now user_id resource_id signed_quantity price) s1 with
      | (Raise e, _) => (Raise (HTTPException 500 (exn_str e)), s1)
      | (Ok _, s2) =>
          match faults CCreateTransaction with
          | Some msg => (Raise (HTTPException 500 msg), s2)
          | None =>
              let s3 := snd (create_transaction now user_id resource_id trade_type
                               quantity price (quantity * price) s2) in
              match faults CGetUpdatedUser with
              | Some msg => (Raise (HTTPException 500 msg), s3)
              | None =>
                  (Ok {| message := "Trade executed successfully";
                         transaction_id := S (transactions_seq s);
                         balance := new_balance |}, s3)
              end
          end
      end
  end.

(** What an order that passed every check of [execute_trade] satisfies. *)
Record validated (user_id : nat) (trade_data : trade_request) (s : db)
    (u : user_row) (resource_id : nat) (r : resource_row)
    (signed_quantity new_balance : real) : Prop := {
  v_symbol : resource_symbol trade_data ≠ "";
  v_quantity : 0 < quantity trade_data;
  v_user : users s !! user_id = Some u;
  v_resource : get_resource_by_symbol (resource_symbol trade_data) s = Some (resource_id, r);
  v_side :
    (lower (trade_type trade_data) = "buy" ∧
     ¬ u_balance u < quantity trade_data * r_current_price r ∧
     signed_quantity = quantity trade_data ∧
     new_balance = u_balance u - quantity trade_data * r_current_price r) ∨
    (lower (trade_type trade_data) = "sell" ∧
     (∃ p, positions s !! (user_id, resource_id) = Some p ∧
           ¬ p_quantity p < quantity trade_data) ∧
     signed_quantity = - quantity trade_data ∧
     new_balance = u_balance u + quantity trade_data * r_current_price r) }.

(** A fill of user 1 on resource 1, for the examples. *)
Definition fill_at (now : nat) (q p : Z) : fill :=
  {| f_user := 1; f_resource := 1; f_quantity := real_of_Z q; f_price := real_of_Z p;
     f_now := now |}.

(** The store after a first buy of 10 units at 100, the price then moved
    to 120: user 1 holds 10 units at average cost 100 and a balance of 9000. *)
Definition after_first_buy : db :=
  run [ETrade no_faults 1 1 (buy 10); EPrice 2 1 (real_of_Z 120)] demo_db.

(** A buy of 10 units at 100, the price moved to 120, and a sell of the 10
    units. *)
Definition round_trip : list event :=
  [ ETrade no_faults 1 1 (buy 10); EPrice 2 1 (real_of_Z 120);
    ETrade no_faults 3 1 (sell 10) ].

(** A fault plan with one failing call. *)
Definition fail_at (c : call_site) (msg : string) : fault_plan :=
  λ c', if decide (c' = c) then Some msg else None.







(** Two trades of one user within the same second: a buy and the sell of
    what was bought. *)
Definition ties_db : db :=
  run [ETrade no_faults 1 1 (buy 1); ETrade no_faults 1 1 (sell 1)] demo_db.

(** Every recorded transaction names a resource that has a row. *)
Definition transactions_reference_resources (s : db) : Prop :=
  ∀ t, t ∈ transactions s → is_Some (resources s !! t_resource_id t).

(** ** Bootstrap *)

Record default_resource := {
  d_symbol : string;
  d_name : string;
  d_price : real;
  d_volatility : real }.

(** The list of [create_default_resources]. *)
Definition default_resources : list default_resource :=
  [ {| d_symbol := "ENG"; d_name := "Energy Units"; d_price := real_of_Z 100;
       d_volatility := Q2Qc (3 # 100) |};
    {| d_symbol := "DTA"; d_name := "Digital Tokens"; d_price := real_of_Z 50;
       d_volatility := Q2Qc (5 # 100) |};
    {| d_symbol := "CRY"; d_name := "Crypto Crystals"; d_price := real_of_Z 200;
       d_volatility := Q2Qc (4 # 100) |};
    {| d_symbol := "BIO"; d_name := "Bio Materials"; d_price := real_of_Z 75;
       d_volatility := Q2Qc (2 # 100) |};
    {| d_symbol := "MET"; d_name := "Rare Metals"; d_price := real_of_Z 150;
       d_volatility := Q2Qc (25 # 1000) |} ].

(** One turn of the loop: [SELECT id FROM resources WHERE symbol = ?], and
    the [INSERT] when nothing came back. *)
Definition insert_default_resource (now : nat) (resource_data : default_resource) (s : db)
    : db :=
  match get_resource_by_symbol (d_symbol resource_data) s with
  | Some _ => s
  | None =>
      {| users := users s; users_seq := users_seq s;
         resources :=
           <[S (resources_seq s) :=
               {| r_symbol := d_symbol resource_data; r_name := d_name resource_data;
                  r_current_price := d_price resource_data;
                  r_volatility := d_volatility resource_data;
                  r_last_updated := now |}]> (resources s);
         resources_seq := S (resources_seq s);
         positions := positions s; positions_seq := positions_seq s;
         transactions := transactions s; transactions_seq := transactions_seq s |}
  end.

(** [Database.create_default_resources]. *)
Definition create_default_resources (now : nat) (s : db) : db :=
  foldl (λ s resource_data, insert_default_resource now resource_data s) s default_resources.

(** [Database.create_test_user], with [auth.get_password_hash] taken as it
    comes: the [INSERT] is that of [create_user], and an exception (the
    email may be taken under another name) is printed and dropped. *)
Definition create_test_user (get_password_hash : string → string) (now : nat) (s : db) : db :=
  match get_user_by_username "testuser" s with
  | Some _ => s
  | None =>
      match create_user now "testuser" "test@example.com"
              (get_password_hash "password123") s with
      | (Ok _, s') => s'
      | (Raise _, _) => s
      end
  end.

(** [Database.init_database] on a store whose tables exist or not: the
    [CREATE TABLE IF NOT EXISTS] statements leave existing tables alone. *)
Definition init_database (get_password_hash : string → string) (now : nat) (s : db) : db :=
  create_test_user get_password_hash now (create_default_resources now s).

(** No resource id is above the counter of the table. *)
Definition resources_bounded (s : db) : Prop :=
  ∀ k, is_Some (resources s !! k) → (k ≤ resources_seq s)%nat.

(** ** The price job *)

(** [Database.get_all_resources]: the rows of the table with their ids.
    The statement has no [ORDER BY]; the rows come in the order of the
    map. *)
Definition get_all_resources (s : db) : list (nat * resource_row) :=
  map_to_list (resources s).

Section PriceJob.

(** [uniform n] is the draw of [random.uniform(-0.05, 0.05)] in the turn of
    the loop that finds [updated_count = n], and [clock n] the time of its
    update. *)
Variable uniform : nat → real.
Variable clock : nat → nat.

(** [update_resource_prices] of app.py: the count of the response, and the
    store. Each price is computed from the row that [get_all_resources]
    read before the loop. *)
Definition update_resource_prices (s : db) : nat * db :=
  foldl (λ acc resource,
           let updated_count := fst acc in
           let change_percent := uniform updated_count in
           let new_price := r_current_price (snd resource) * (1 + change_percent) in
           (S updated_count,
            update_resource_price (clock updated_count) (fst resource) new_price (snd acc)))
        (0%nat, s) (get_all_resources s).

End PriceJob.

(** ** The holdings *)




(** ** The bearer token *)

(** [str.split(sep)] for a separator of one character. *)
Fixpoint split (sep : ascii) (s : string) : list string :=
  match s with
  | EmptyString => [EmptyString]
  | String c s' =>
      if decide (c = sep) then EmptyString :: split sep s'
      else match split sep s' with
           | w :: ws => String c w :: ws
           | [] => [String c EmptyString]
           end
  end.

(** [auth.get_token_from_request], on the value of the [Authorization]
    header. The subscript [[1]] of the split header is in range whenever
    the header starts with ["Bearer "]. *)
Definition get_token_from_request (auth_header : option string) : option string :=
  match auth_header with
  | None => None
  | Some auth_header =>
      if bool_decide (auth_header = "") then None
      else if String.prefix "Bearer " auth_header then split " " auth_header !! 1%nat
      else None
  end.

(** ** Invariants of a running system *)

(** The ids of the log increase along it, and none is above the counter of
    the table. *)
Definition log_ids_ordered (s : db) : Prop :=
  StronglySorted lt (t_id <$> transactions s) ∧
  Forall (λ t, (t_id t ≤ transactions_seq s)%nat) (transactions s).

(** A row as [execute_trade] writes it. *)
Definition engine_transaction (t : transaction_row) : Prop :=
  0 < t_quantity t ∧
  (t_transaction_type t = "buy" ∨ t_transaction_type t = "sell") ∧
  t_total_value t = t_quantity t * t_price t.

Definition balances_nonneg (s : db) : Prop :=
  ∀ k u, users s !! k = Some u → 0 ≤ u_balance u.

Definition prices_nonneg (s : db) : Prop :=
  ∀ k r, resources s !! k = Some r → 0 ≤ r_current_price r.

Definition price_event_nonneg (e : event) : Prop :=
  match e with
  | EPrice _ _ new_price => 0 ≤ new_price
  | ETrade _ _ _ _ => True
  end.

(** The [UNIQUE] constraints of the schema, as properties of a store. *)
Definition symbols_unique (s : db) : Prop :=
  ∀ k1 r1 k2 r2,
    resources s !! k1 = Some r1 → resources s !! k2 = Some r2 →
    r_symbol r1 = r_symbol r2 → k1 = k2.

Definition usernames_unique (s : db) : Prop :=
  ∀ k1 u1 k2 u2,
    users s !! k1 = Some u1 → users s !! k2 = Some u2 →
    u_username u1 = u_username u2 → k1 = k2.

(** * Properties *)

(** ** Arithmetic on [real] *)

Lemma real_eq_Qeq (x y : real) : x = y ↔ (this x == this y)%Q.
Proof. split; [intros ->; reflexivity | apply Qc_is_canon]. Qed.

(** Linear arithmetic on [real], through [lra] on the underlying [Q]. *)
Ltac real_lra :=
  repeat match goal with
  | H : @eq Qc _ _ |- _ => apply real_eq_Qeq in H
  | H : ¬ @eq Qc _ _ |- _ => rewrite real_eq_Qeq in H
  | |- @eq Qc _ _ => apply Qc_is_canon
  | |- ¬ @eq Qc _ _ => rewrite real_eq_Qeq
  end;
  unfold Qcle, Qclt, Qcminus, Qcplus, Qcopp, Qcmult, Q2Qc in *; cbn [this] in *;
  rewrite ?Qred_correct in *;
  lra.

(** ** The position book *)

Lemma row_subscript_quantity {A} (value : A) s :
  row_subscript ["id"; "quantity"] "quantity" value s = (Ok value, s).
Proof. reflexivity. Qed.

Lemma row_subscript_average_price {A} (value : A) s :
  row_subscript ["id"; "quantity"] "average_price" value s
  = (Raise (IndexError "No item with that key"), s).
Proof. reflexivity. Qed.

Ltac position_unfold :=
  unfold create_or_update_position, with_connection, bind, query, execute;
  cbv beta iota zeta.

Section PositionBook.
Variables (now user_id resource_id : nat) (quantity average_price : real) (s : db).

(** An update that would leave a positive quantity reads
    [existing['average_price']], a column that the [SELECT] did not ask
    for: the method raises and nothing is written. *)
Lemma create_or_update_position_update existing :
  positions s !! (user_id, resource_id) = Some existing →
  0 < p_quantity existing + quantity →
  create_or_update_position now user_id resource_id quantity average_price s
  = (Raise (IndexError "No item with that key"), s).
Proof.
  intros Hex Hpos. position_unfold. rewrite Hex. cbv beta iota.
  rewrite row_subscript_quantity. cbv beta iota.
  destruct (decide _) as [Hle|_]; [real_lra|].
  by rewrite row_subscript_quantity, row_subscript_average_price.
Qed.

Lemma create_or_update_position_delete existing :
  positions s !! (user_id, resource_id) = Some existing →
  p_quantity existing + quantity ≤ 0 →
  create_or_update_position now user_id resource_id quantity average_price s
  = (Ok tt, set_positions (delete (user_id, resource_id)) s).
Proof.
  intros Hex Hle. position_unfold. rewrite Hex. cbv beta iota.
  rewrite row_subscript_quantity. cbv beta iota.
  by destruct (decide _) as [_|Hn].
Qed.

Lemma create_or_update_position_insert :
  positions s !! (user_id, resource_id) = None →
  create_or_update_position now user_id resource_id quantity average_price s
  = (Ok tt,
     {| users := users s; users_seq := users_seq s;
        resources := resources s; resources_seq := resources_seq s;
        positions :=
          <[(user_id, resource_id) :=
              {| p_id := S (positions_seq s); p_quantity := quantity;
                 p_average_price := average_price; p_created_at := now |}]> (positions s);
        positions_seq := S (positions_seq s);
        transactions := transactions s; transactions_seq := transactions_seq s |}).
Proof. intros Hex. position_unfold. by rewrite Hex. Qed.

(** The three cases are all there is. *)
Lemma create_or_update_position_cases :
  let out := create_or_update_position now user_id resource_id quantity average_price s in
  (∃ existing, positions s !! (user_id, resource_id) = Some existing ∧
     0 < p_quantity existing + quantity ∧
     out = (Raise (IndexError "No item with that key"), s)) ∨
  (∃ existing, positions s !! (user_id, resource_id) = Some existing ∧
     p_quantity existing + quantity ≤ 0 ∧
     out = (Ok tt, set_positions (delete (user_id, resource_id)) s)) ∨
  (positions s !! (user_id, resource_id) = None ∧
   out = (Ok tt,
     {| users := users s; users_seq := users_seq s;
        resources := resources s; resources_seq := resources_seq s;
        positions :=
          <[(user_id, resource_id) :=
              {| p_id := S (positions_seq s); p_quantity := quantity;
                 p_average_price := average_price; p_created_at := now |}]> (positions s);
        positions_seq := S (positions_seq s);
        transactions := transactions s; transactions_seq := transactions_seq s |})).
Proof.
  cbv zeta. destruct (positions s !! (user_id, resource_id)) as [e|] eqn:Hex.
  - destruct (decide (p_quantity e + quantity ≤ 0)) as [Hle|Hgt].
    + right. left. exists e. eauto using create_or_update_position_delete.
    + apply Qcnot_le_lt in Hgt. left. exists e. eauto using create_or_update_position_update.
  - right. right. eauto using create_or_update_position_insert.
Qed.

Lemma create_or_update_position_raise e s' :
  create_or_update_position now user_id resource_id quantity average_price s = (Raise e, s') →
  s' = s ∧ e = IndexError "No item with that key".
Proof.
  destruct create_or_update_position_cases
    as [(? & _ & _ & ->)|[(? & _ & _ & ->)|[_ ->]]]; by intros [= <- <-].
Qed.

(** What the call leaves alone, whether it returns or raises. *)
Lemma create_or_update_position_frame :
  let s' := snd (create_or_update_position now user_id resource_id quantity average_price s) in
  users s' = users s ∧ resources s' = resources s ∧
  transactions s' = transactions s ∧ transactions_seq s' = transactions_seq s ∧
  ∀ k, k ≠ (user_id, resource_id) → positions s' !! k = positions s !! k.
Proof.
  cbv zeta. destruct create_or_update_position_cases
    as [(? & _ & _ & ->)|[(? & _ & _ & ->)|[_ ->]]]; cbn; repeat split; try done.
  - intros k Hk. by rewrite lookup_delete_ne.
  - intros k Hk. by rewrite lookup_insert_ne.
Qed.
End PositionBook.

(** A fill that opens or closes a position moves the held quantity by its
    signed quantity and keeps every stored quantity positive. *)
Lemma apply_fill_held f s :
  positions_positive s → fill_ok f s = true →
  positions_positive (apply_fill f s) ∧
  ∀ k, held (apply_fill f s) k =
       held s k + (if bool_decide ((f_user f, f_resource f) = k) then f_quantity f else 0).
Proof.
  intros Hinv Hok. unfold fill_ok in Hok.
  destruct (create_or_update_position_frame (f_now f) (f_user f) (f_resource f)
              (f_quantity f) (f_price f) s) as (_ & _ & _ & _ & Hother).
  fold (apply_fill f s) in Hother.
  assert (Hkey : ∀ o,
    positions (apply_fill f s) !! (f_user f, f_resource f) = o →
    (∀ p, o = Some p → 0 < p_quantity p) →
    from_option p_quantity 0 o = held s (f_user f, f_resource f) + f_quantity f →
    positions_positive (apply_fill f s) ∧
    ∀ k, held (apply_fill f s) k =
         held s k + (if bool_decide ((f_user f, f_resource f) = k) then f_quantity f else 0)).
  { intros o Ho Hpos Hheld. split.
    - intros k p Hk. destruct (decide (k = (f_user f, f_resource f))) as [->|Hne].
      + apply Hpos. by rewrite <- Ho.
      + rewrite Hother in Hk by done. by eapply Hinv.
    - intros k. destruct (decide ((f_user f, f_resource f) = k)) as [<-|Hk].
      + rewrite bool_decide_eq_true_2 by done.
        unfold held at 1. rewrite Ho. by destruct o.
      + rewrite bool_decide_eq_false_2 by done.
        unfold held. rewrite Hother by done. destruct (positions s !! k); ring. }
  destruct (positions s !! (f_user f, f_resource f)) as [e|] eqn:Hex.
  - apply bool_decide_eq_true_1 in Hok.
    apply (Hkey None).
    + unfold apply_fill. erewrite create_or_update_position_delete; [|done|real_lra].
      cbn. apply lookup_delete_eq.
    + done.
    + unfold held. rewrite Hex. cbn. real_lra.
  - apply bool_decide_eq_true_1 in Hok.
    eapply Hkey.
    + unfold apply_fill. rewrite create_or_update_position_insert by done.
      cbn. apply lookup_insert_eq.
    + by intros p [= <-].
    + unfold held. rewrite Hex. cbn. ring.
Qed.

Lemma apply_fills_held fs : ∀ s,
  positions_positive s → fills_ok fs s = true →
  positions_positive (apply_fills fs s) ∧
  ∀ k, held (apply_fills fs s) k = held s k + fill_sum k fs.
Proof.
  induction fs as [|f fs IH]; intros s Hinv Hok; cbn.
  - split; [done|]. intros k. ring.
  - cbn in Hok. apply andb_true_iff in Hok as [Hf Hfs].
    destruct (apply_fill_held f s Hinv Hf) as [Hinv' Hheld].
    destruct (IH _ Hinv' Hfs) as [Hinv'' Hheld'']. split; [done|].
    intros k. rewrite Hheld'', Hheld. ring.
Qed.

Lemma positions_positive_empty : positions_positive empty_db.
Proof. intros k p Hk. cbn in Hk. by rewrite lookup_empty in Hk. Qed.

(** C5, the claim as stated fails on sequences that the position book
    accepts: a sell on an empty book stores a record with a negative
    quantity; a sell larger than the holding deletes the record, and the
    next buy starts again from zero, so the stored 7 is not the signed sum
    2; a fill of quantity zero on an empty book stores a record with
    quantity zero. *)
Lemma position_sum_law_fails :
  ¬ position_sum_law [fill_at 0 (-5) 100] ∧
  ¬ position_sum_law [fill_at 0 5 100; fill_at 1 (-10) 100; fill_at 2 7 100] ∧
  ¬ position_sum_law [fill_at 0 0 100].
Proof.
  split; [|split].
  - intros H. destruct (H (1%nat, 1%nat)) as [H1 _].
    assert (Hn : positions (apply_fills [fill_at 0 (-5) 100] empty_db) !! (1%nat, 1%nat) ≠ None)
      by compute_done.
    apply Hn, H1. compute_done.
  - intros H. destruct (H (1%nat, 1%nat)) as [_ H2].
    destruct H2 as (p & Hp & Hq); [compute_done|].
    assert (Hs : positions
      (apply_fills [fill_at 0 5 100; fill_at 1 (-10) 100; fill_at 2 7 100] empty_db)
      !! (1%nat, 1%nat) =
      Some {| p_id := 2; p_quantity := real_of_Z 7; p_average_price := real_of_Z 100;
              p_created_at := 2 |}) by compute_done.
    rewrite Hs in Hp. injection Hp as <-. revert Hq. compute_done.
  - intros H. destruct (H (1%nat, 1%nat)) as [H1 _].
    assert (Hn : positions (apply_fills [fill_at 0 0 100] empty_db) !! (1%nat, 1%nat) ≠ None)
      by compute_done.
    apply Hn, H1. compute_done.
Qed.

(** C5 (amended). For every sequence of fills applied to the empty book in
    which each fill opens a position (a positive quantity for a pair
    without a record) or closes one (a sell of exactly the quantity held):
    the signed sum of each pair is never negative, the record of a pair
    holds exactly that sum when it is positive, and there is no record when
    it is zero; no stored quantity is zero or less. *)
Theorem position_quantity_is_fill_sum (fs : list fill) :
  fills_ok fs empty_db = true →
  position_sum_law fs ∧
  (∀ k, 0 ≤ fill_sum k fs) ∧
  positions_positive (apply_fills fs empty_db).
Proof.
  intros Hok.
  destruct (apply_fills_held fs empty_db positions_positive_empty Hok) as [Hinv Hheld].
  assert (Hsum : ∀ k, held (apply_fills fs empty_db) k = fill_sum k fs).
  { intros k. rewrite Hheld. unfold held at 1. cbn. rewrite lookup_empty. ring. }
  split; [|split; [|done]].
  - intros k. specialize (Hsum k). unfold held in Hsum.
    destruct (positions (apply_fills fs empty_db) !! k) as [p|] eqn:Hk.
    + specialize (Hinv _ _ Hk). split.
      * intros Hle. real_lra.
      * intros _. eauto.
    + split; [done|]. intros Hlt. real_lra.
  - intros k. specialize (Hsum k). unfold held in Hsum.
    destruct (positions (apply_fills fs empty_db) !! k) as [p|] eqn:Hk.
    + specialize (Hinv _ _ Hk). real_lra.
    + real_lra.
Qed.

Lemma position_quantity_is_fill_sum_witness :
  position_sum_law [fill_at 1 10 100; fill_at 3 (-10) 120; fill_at 5 15 130] ∧
  (∀ k, 0 ≤ fill_sum k [fill_at 1 10 100; fill_at 3 (-10) 120; fill_at 5 15 130]) ∧
  positions_positive
    (apply_fills [fill_at 1 10 100; fill_at 3 (-10) 120; fill_at 5 15 130] empty_db).
Proof.
  apply (position_quantity_is_fill_sum
           [fill_at 1 10 100; fill_at 3 (-10) 120; fill_at 5 15 130]).
  vm_compute. reflexivity.
Defined.
(** ** The trade handler *)

Ltac trade_unfold :=
  unfold execute_trade, except_handlers, bind, db_read, db_write, db_insert, db_call,
    query, execute, subscript_balance, ret, raise; cbv zeta.

Lemma update_user_balance_some user_id nb s u :
  users s !! user_id = Some u →
  update_user_balance user_id nb s = set_users (insert user_id (with_balance u nb)) s.
Proof. intros Hu. unfold update_user_balance. by rewrite Hu. Qed.

Lemma update_user_balance_lookup user_id nb s u :
  users s !! user_id = Some u →
  users (update_user_balance user_id nb s) !! user_id = Some (with_balance u nb).
Proof. intros Hu. rewrite (update_user_balance_some _ _ _ _ Hu). cbn. apply lookup_insert_eq. Qed.

Lemma update_user_balance_frame user_id nb s :
  positions (update_user_balance user_id nb s) = positions s ∧
  transactions (update_user_balance user_id nb s) = transactions s ∧
  transactions_seq (update_user_balance user_id nb s) = transactions_seq s ∧
  resources (update_user_balance user_id nb s) = resources s.
Proof. unfold update_user_balance. by destruct (users s !! user_id). Qed.

(** The position step of the handler: the call, or the storage failure
    planned for it. *)
Lemma position_step_frame faults now user_id rid sq price s :
  let s' := snd (db_call faults CUpdatePosition
                   (create_or_update_position now user_id rid sq price) s) in
  users s' = users s ∧ resources s' = resources s ∧
  transactions s' = transactions s ∧ transactions_seq s' = transactions_seq s ∧
  ∀ k, k ≠ (user_id, rid) → positions s' !! k = positions s !! k.
Proof.
  cbv zeta. unfold db_call. destruct (faults CUpdatePosition); [done|].
  apply create_or_update_position_frame.
Qed.

Lemma position_step_raise faults now user_id rid sq price s e s' :
  db_call faults CUpdatePosition (create_or_update_position now user_id rid sq price) s
  = (Raise e, s') →
  s' = s ∧ ∃ msg, e = OperationalError msg ∨ e = IndexError msg.
Proof.
  unfold db_call. destruct (faults CUpdatePosition) as [msg|].
  - intros [= <- <-]. eauto.
  - intros H. apply create_or_update_position_raise in H as [-> ->]. eauto.
Qed.

(** The storage steps of the handler, once the checks are passed, are the
    stages of [commit]. *)
Lemma commit_stages faults now user_id rid ty sq q price nb s u :
  users s !! user_id = Some u →
  except_handlers (
    _ <- (_ <- db_write faults CUpdateBalance (update_user_balance user_id nb) ;;
          db_call faults CUpdatePosition
            (create_or_update_position now user_id rid sq price)) ;;
    transaction_id <- db_insert faults CCreateTransaction
      (create_transaction now user_id rid ty q price (q * price)) ;;
    updated_user <- db_read faults CGetUpdatedUser (get_user_by_id user_id) ;;
    balance <- subscript_balance updated_user ;;
    ret {| message := "Trade executed successfully";
           transaction_id := transaction_id;
           balance := balance |}) s
  = commit faults now user_id rid ty sq q price nb s.
Proof.
  intros Hu. unfold commit. trade_unfold.
  destruct (faults CUpdateBalance); [done|].
  destruct (position_step_frame faults now user_id rid sq price
              (update_user_balance user_id nb s)) as (Hus & _ & _ & Hseq & _).
  unfold db_call in *.
  destruct (match faults CUpdatePosition with Some _ => _ | None => _ end)
    as [[[]|e] s2] eqn:Hstep; cbn [snd] in *.
  2:{ destruct (position_step_raise faults now user_id rid sq price
                  (update_user_balance user_id nb s) e s2)
        as [-> (msg & [->| ->])]; [exact Hstep|done..]. }
  destruct (faults CCreateTransaction); [done|].
  cbn [create_transaction snd].
  destruct (faults CGetUpdatedUser); [done|].
  unfold get_user_by_id. cbn [users].
  rewrite Hus, Hseq, (update_user_balance_lookup _ _ _ _ Hu).
  destruct (update_user_balance_frame user_id nb s) as (_ & _ & -> & _).
  done.
Qed.

Lemma execute_trade_inv faults now user_id td s res s' :
  execute_trade faults now user_id td s = (res, s') →
  (s' = s ∧ ∃ e, res = Raise e) ∨
  (∃ u rid r sq nb,
     validated user_id td s u rid r sq nb ∧
     (res, s') = commit faults now user_id rid (lower (trade_type td)) sq (quantity td)
                   (r_current_price r) nb s).
Proof.
  trade_unfold.
  destruct (bool_decide (lower (trade_type td) ∈ ["buy"; "sell"])) eqn:Hty; cbn [negb];
    [|intros [= <- <-]; left; eauto].
  apply bool_decide_eq_true_1 in Hty.
  case_bool_decide as Hsym; cbn [orb]; [intros [= <- <-]; left; eauto|].
  case_bool_decide as Hq; [intros [= <- <-]; left; eauto|].
  apply Qcnot_le_lt in Hq.
  destruct (faults CGetUser) eqn:Hf1; [intros [= <- <-]; left; eauto|].
  destruct (faults CGetResource) eqn:Hf2; [intros [= <- <-]; left; eauto|].
  destruct (get_resource_by_symbol _ s) as [[rid r]|] eqn:Hr; [|intros [= <- <-]; left; eauto].
  unfold get_user_by_id.
  case_bool_decide as Hbuy.
  - destruct (users s !! user_id) as [u|] eqn:Hu; [|intros [= <- <-]; left; eauto].
    case_bool_decide as Hfunds; [intros [= <- <-]; left; eauto|].
    intros H. right.
    exists u, rid, r, (quantity td), (u_balance u - quantity td * r_current_price r).
    split; [split; try done; by left|].
    rewrite <- H.
    exact (commit_stages faults now user_id rid (lower (trade_type td)) (quantity td)
             (quantity td) (r_current_price r)
             (u_balance u - quantity td * r_current_price r) s u Hu).
  - assert (Hsell : lower (trade_type td) = "sell").
    { apply elem_of_cons in Hty as [?|Hty]; [done|]. by apply list_elem_of_singleton in Hty. }
    destruct (faults CGetPosition) eqn:Hf3; [intros [= <- <-]; left; eauto|].
    destruct (get_position user_id rid s) as [pv|] eqn:Hp; [|intros [= <- <-]; left; eauto].
    case_bool_decide as Hheld; [intros [= <- <-]; left; eauto|].
    destruct (users s !! user_id) as [u|] eqn:Hu; [|intros [= <- <-]; left; eauto].
    intros H. right.
    exists u, rid, r, (- quantity td), (u_balance u + quantity td * r_current_price r).
    split.
    + split; try done. right. split; [done|]. split; [|done].
      unfold get_position in Hp. destruct (positions s !! (user_id, rid)) as [p|]; [|done].
      cbn in Hp. destruct (resources s !! rid); [|done]. injection Hp as <-. eauto.
    + rewrite <- H.
      exact (commit_stages faults now user_id rid (lower (trade_type td)) (- quantity td)
               (quantity td) (r_current_price r)
               (u_balance u + quantity td * r_current_price r) s u Hu).
Qed.

Lemma get_resource_by_symbol_lookup symbol s rid r :
  get_resource_by_symbol symbol s = Some (rid, r) →
  resources s !! rid = Some r ∧ r_symbol r = symbol.
Proof.
  unfold get_resource_by_symbol. intros H.
  apply fmap_Some in H as ([i kv] & Hfind & Hkv). cbn in Hkv. subst kv.
  apply list_find_Some in Hfind as (Hi & Hsym & _). cbn in Hsym.
  split; [|done]. apply elem_of_map_to_list. by eapply list_elem_of_lookup_2.
Qed.

Lemma type_buy_ok : bool_decide ("buy" ∈ ["buy"; "sell"]) = true.
Proof. compute_done. Qed.

Lemma type_sell_ok : bool_decide ("sell" ∈ ["buy"; "sell"]) = true.
Proof. compute_done. Qed.

(** An order that passes the checks runs the storage steps, provided the
    reads before them succeed. *)
Lemma execute_trade_validated faults now user_id td s u rid r sq nb :
  validated user_id td s u rid r sq nb →
  faults CGetUser = None → faults CGetResource = None →
  (lower (trade_type td) = "sell" → faults CGetPosition = None) →
  execute_trade faults now user_id td s =
    commit faults now user_id rid (lower (trade_type td)) sq (quantity td)
      (r_current_price r) nb s.
Proof.
  intros [Hsym Hq Hu Hr Hside] Hf1 Hf2 Hf3.
  rewrite <- (commit_stages faults now user_id rid _ sq (quantity td) _ nb s u Hu).
  trade_unfold.
  destruct Hside as [(Hty & Hfunds & -> & ->)|(Hty & (p & Hp & Hheld) & -> & ->)].
  - rewrite Hty, type_buy_ok. cbn [negb].
    rewrite (bool_decide_eq_false_2 _ Hsym), (bool_decide_eq_false_2 (quantity td ≤ 0))
      by by apply Qclt_not_le.
    cbn [orb]. rewrite Hf1, Hf2. unfold get_user_by_id. rewrite Hu, Hr.
    rewrite (bool_decide_eq_true_2 ("buy" = "buy")) by done.
    by rewrite (bool_decide_eq_false_2 _ Hfunds).
  - rewrite Hty, type_sell_ok. cbn [negb].
    rewrite (bool_decide_eq_false_2 _ Hsym), (bool_decide_eq_false_2 (quantity td ≤ 0))
      by by apply Qclt_not_le.
    cbn [orb]. rewrite Hf1, Hf2, (Hf3 Hty). unfold get_user_by_id. rewrite Hu, Hr.
    rewrite (bool_decide_eq_false_2 ("sell" = "buy")) by done.
    unfold get_position. rewrite Hp. cbn.
    destruct (get_resource_by_symbol_lookup _ _ _ _ Hr) as [-> _]. cbn.
    by rewrite (bool_decide_eq_false_2 _ Hheld).
Qed.



(** The check of the sell branch, as the handler makes it on the row of
    [get_position]. *)
Lemma sell_check_fails faults now user_id td s rid r :
  lower (trade_type td) = "sell" →
  resource_symbol td ≠ "" → 0 < quantity td →
  faults CGetUser = None → faults CGetResource = None → faults CGetPosition = None →
  get_resource_by_symbol (resource_symbol td) s = Some (rid, r) →
  match get_position user_id rid s with
  | Some position => p_quantity (pv_position position) < quantity td
  | None => True
  end →
  execute_trade faults now user_id td s = (Raise InsufficientQuantity, s).
Proof.
  intros Hty Hsym Hq Hf1 Hf2 Hf3 Hr Hlt.
  trade_unfold. rewrite Hty, type_sell_ok. cbn [negb].
  rewrite (bool_decide_eq_false_2 _ Hsym), (bool_decide_eq_false_2 (quantity td ≤ 0))
    by by apply Qclt_not_le.
  cbn [orb]. rewrite Hf1, Hf2, Hf3, Hr.
  rewrite (bool_decide_eq_false_2 ("sell" = "buy")) by done.
  destruct (get_position user_id rid s) as [position|]; [|done].
  by rewrite (bool_decide_eq_true_2 _ Hlt).
Qed.

(** C4. A sell of more than the quantity held for the resource, the case
    of no position included, is rejected with "Insufficient quantity to
    sell" (status 400), and the store is left as it was: balance,
    positions and transactions, with every other table. *)
Theorem sell_insufficient_quantity faults now user_id td s rid r :
  lower (trade_type td) = "sell" →
  resource_symbol td ≠ "" → 0 < quantity td →
  faults CGetUser = None → faults CGetResource = None → faults CGetPosition = None →
  get_resource_by_symbol (resource_symbol td) s = Some (rid, r) →
  held s (user_id, rid) < quantity td →
  execute_trade faults now user_id td s = (Raise InsufficientQuantity, s).
Proof.
  intros Hty Hsym Hq Hf1 Hf2 Hf3 Hr Hlt.
  apply (sell_check_fails _ _ _ _ _ rid r); try done.
  unfold get_position, held in *.
  destruct (positions s !! (user_id, rid)) as [p|]; [|done]. cbn.
  destruct (get_resource_by_symbol_lookup _ _ _ _ Hr) as [-> _]. done.
Qed.

Lemma sell_insufficient_quantity_witness :
  execute_trade no_faults 5 1 (sell 11) after_first_buy
  = (Raise InsufficientQuantity, after_first_buy).
Proof.
  apply (sell_insufficient_quantity no_faults 5 1 (sell 11) after_first_buy 1
           {| r_symbol := "ENG"; r_name := "Energy Units";
              r_current_price := real_of_Z 120; r_volatility := Q2Qc (3 # 100);
              r_last_updated := 2 |}).
  - reflexivity.
  - discriminate.
  - reflexivity.
  - reflexivity.
  - reflexivity.
  - reflexivity.
  - vm_compute. reflexivity.
  - vm_compute. reflexivity.
Defined.

(** C6, the claim as stated fails: called with a negative quantity for a
    pair without a record, [create_or_update_position] does not fail; it
    returns and has stored a record that holds the negative quantity. *)
Lemma negative_fill_opens_position :
  real_of_Z (-5) < 0 ∧
  positions empty_db !! (1%nat, 1%nat) = None ∧
  fst (create_or_update_position 7 1 1 (real_of_Z (-5)) (real_of_Z 100) empty_db) = Ok tt ∧
  positions
    (snd (create_or_update_position 7 1 1 (real_of_Z (-5)) (real_of_Z 100) empty_db))
    !! (1%nat, 1%nat)
  = Some {| p_id := 1; p_quantity := real_of_Z (-5); p_average_price := real_of_Z 100;
            p_created_at := 7 |}.
Proof. compute_done. Qed.

(** C6 (amended). The rejection of a sell without a position is made by
    the trade engine, not by the position book. For every sell order of a
    user who has no record for the resource, [execute_trade] fails with
    "Insufficient quantity to sell", never calls the position book and
    leaves the store as it was. [create_or_update_position] itself does not
    reject such a fill: called with that negative quantity it returns and
    has inserted a record that holds it. *)
Theorem sell_without_position faults now user_id td s rid r :
  lower (trade_type td) = "sell" →
  resource_symbol td ≠ "" → 0 < quantity td →
  faults CGetUser = None → faults CGetResource = None → faults CGetPosition = None →
  get_resource_by_symbol (resource_symbol td) s = Some (rid, r) →
  positions s !! (user_id, rid) = None →
  execute_trade faults now user_id td s = (Raise InsufficientQuantity, s) ∧
  let direct :=
    create_or_update_position now user_id rid (- quantity td) (r_current_price r) s in
  fst direct = Ok tt ∧
  positions (snd direct) !! (user_id, rid)
  = Some {| p_id := S (positions_seq s); p_quantity := - quantity td;
            p_average_price := r_current_price r; p_created_at := now |}.
Proof.
  intros Hty Hsym Hq Hf1 Hf2 Hf3 Hr Hnone. split.
  - apply (sell_check_fails _ _ _ _ _ rid r); try done.
    unfold get_position. by rewrite Hnone.
  - cbv zeta. rewrite create_or_update_position_insert by done. cbn.
    by rewrite lookup_insert_eq.
Qed.

Lemma sell_without_position_witness :
  execute_trade no_faults 1 1 (sell 5) demo_db = (Raise InsufficientQuantity, demo_db) ∧
  let direct := create_or_update_position 1 1 1 (- real_of_Z 5) (real_of_Z 100) demo_db in
  fst direct = Ok tt ∧
  positions (snd direct) !! (1%nat, 1%nat)
  = Some {| p_id := 1; p_quantity := - real_of_Z 5;
            p_average_price := real_of_Z 100; p_created_at := 1 |}.
Proof.
  apply (sell_without_position no_faults 1 1 (sell 5) demo_db 1
           {| r_symbol := "ENG"; r_name := "Energy Units";
              r_current_price := real_of_Z 100; r_volatility := Q2Qc (3 # 100);
              r_last_updated := 0 |}).
  - reflexivity.
  - discriminate.
  - reflexivity.
  - reflexivity.
  - reflexivity.
  - reflexivity.
  - reflexivity.
  - reflexivity.
Defined.

(** ** Effects of a trade *)















(** ** Fills on an existing position *)

(** An order that passed the checks and whose fill leaves a positive
    quantity on an existing record: the balance is updated, the position
    update raises, and the trade ends with status 500 before any
    transaction is recorded. *)
Lemma execute_trade_update_raises faults now user_id td s u rid r sq nb existing :
  validated user_id td s u rid r sq nb →
  (∀ c, faults c = None) →
  positions s !! (user_id, rid) = Some existing →
  0 < p_quantity existing + sq →
  execute_trade faults now user_id td s
  = (Raise (HTTPException 500 "No item with that key"), update_user_balance user_id nb s).
Proof.
  intros Hval Hf Hex Hpos.
  rewrite (execute_trade_validated _ _ _ _ _ _ _ _ _ _ Hval) by auto.
  unfold commit, db_call. rewrite !Hf.
  erewrite create_or_update_position_update; [done| |done].
  by destruct (update_user_balance_frame user_id nb s) as (-> & _).
Qed.

(** C1, the code on an existing position. After a first buy of 10 units at
    100 the record is 10 units at average cost 100. A second buy of 10
    units at 120 should leave 20 units at (10*100 + 10*120)/20 = 110, and a
    sell of 5 units should leave 5 units at 100. Either call of
    [create_or_update_position] raises [IndexError] instead, because the
    method reads [existing['average_price']] from a row selected as
    [id, quantity]; the record stays at 10 units. Through [execute_trade]
    the second buy ends with status 500 after the balance went from 9000 to
    7800, and no transaction is recorded for it. *)
Theorem fill_on_existing_position_raises :
  let s := after_first_buy in
  let second_buy := execute_trade no_faults 3 1 (buy 10) s in
  positions s !! (1%nat, 1%nat) =
    Some {| p_id := 1; p_quantity := real_of_Z 10; p_average_price := real_of_Z 100;
            p_created_at := 1 |} ∧
  create_or_update_position 3 1 1 (real_of_Z 10) (real_of_Z 120) s
    = (Raise (IndexError "No item with that key"), s) ∧
  create_or_update_position 3 1 1 (real_of_Z (-5)) (real_of_Z 120) s
    = (Raise (IndexError "No item with that key"), s) ∧
  (real_of_Z 10 * real_of_Z 100 + real_of_Z 10 * real_of_Z 120)
    / (real_of_Z 10 + real_of_Z 10) = real_of_Z 110 ∧
  fst second_buy = Raise (HTTPException 500 "No item with that key") ∧
  positions (snd second_buy) = positions s ∧
  transactions (snd second_buy) = transactions s ∧
  u_balance <$> users s !! 1%nat = Some (real_of_Z 9000) ∧
  u_balance <$> users (snd second_buy) !! 1%nat = Some (real_of_Z 7800).
Proof. cbv zeta. compute_done. Qed.

(** ** The price store *)

(** C8, the claim as stated fails: [update_resource_price] checks nothing.
    Called with the price -1 it does not fail, and the stored price of the
    resource goes from 100 to -1. *)
Lemma nonpositive_price_is_stored :
  real_of_Z (-1) ≤ 0 ∧
  r_current_price <$> resources demo_db !! 1%nat = Some (real_of_Z 100) ∧
  r_current_price <$> resources (update_resource_price 9 1 (real_of_Z (-1)) demo_db) !! 1%nat
    = Some (real_of_Z (-1)).
Proof. compute_done. Qed.

(** C8 (amended). [update_resource_price] has no check and no failure of
    its own. For every new price, positive or not, it sets the stored price
    of the resource to the new price and its last-updated time to the
    current time, and changes nothing else: symbol, name and volatility of
    the resource, the other resources, the users, the positions and the
    transactions stay as they were. *)
Theorem update_resource_price_sets_price now resource_id new_price s r :
  resources s !! resource_id = Some r →
  let s' := update_resource_price now resource_id new_price s in
  resources s' !! resource_id =
    Some {| r_symbol := r_symbol r; r_name := r_name r; r_current_price := new_price;
            r_volatility := r_volatility r; r_last_updated := now |} ∧
  (∀ k, k ≠ resource_id → resources s' !! k = resources s !! k) ∧
  resources_seq s' = resources_seq s ∧
  users s' = users s ∧ users_seq s' = users_seq s ∧
  positions s' = positions s ∧ positions_seq s' = positions_seq s ∧
  transactions s' = transactions s ∧ transactions_seq s' = transactions_seq s.
Proof.
  intros Hr. cbv zeta. unfold update_resource_price. rewrite Hr. cbn.
  split; [by rewrite lookup_insert_eq|].
  split; [|done]. intros k Hk. by rewrite lookup_insert_ne.
Qed.

Lemma update_resource_price_sets_price_witness :
  let s' := update_resource_price 9 1 (real_of_Z (-1)) demo_db in
  resources s' !! 1%nat =
    Some {| r_symbol := "ENG"; r_name := "Energy Units"; r_current_price := real_of_Z (-1);
            r_volatility := Q2Qc (3 # 100); r_last_updated := 9 |} ∧
  (∀ k, k ≠ 1%nat → resources s' !! k = resources demo_db !! k) ∧
  resources_seq s' = resources_seq demo_db ∧
  users s' = users demo_db ∧ users_seq s' = users_seq demo_db ∧
  positions s' = positions demo_db ∧ positions_seq s' = positions_seq demo_db ∧
  transactions s' = transactions demo_db ∧ transactions_seq s' = transactions_seq demo_db.
Proof.
  apply (update_resource_price_sets_price 9 1 (real_of_Z (-1)) demo_db
           {| r_symbol := "ENG"; r_name := "Energy Units"; r_current_price := real_of_Z 100;
              r_volatility := Q2Qc (3 # 100); r_last_updated := 0 |}).
  reflexivity.
Defined.

(** A resource id without a row: the [UPDATE] matches nothing. *)
Lemma update_resource_price_unknown now resource_id new_price s :
  resources s !! resource_id = None →
  update_resource_price now resource_id new_price s = s.
Proof. intros Hr. unfold update_resource_price. by rewrite Hr. Qed.

(** ** Registration *)

Lemma create_user_ok now username email password_hash s user_id s' :
  create_user now username email password_hash s = (Ok user_id, s') →
  users s' !! user_id =
    Some {| u_username := username; u_email := email; u_hashed_password := password_hash;
            u_balance := real_of_Z 10000; u_created_at := now |}.
Proof.
  unfold create_user. case_bool_decide; [done|].
  intros [= <- <-]. cbn. by rewrite lookup_insert_eq.
Qed.

(** C10. Every successful registration creates the user with a cash
    balance of exactly 10000: [create_user] stores that balance whatever it
    is called with (it takes a name, an email and a password hash, and no
    balance), and the response of a successful [register] reports the
    balance 10000 of the user it stored. *)
Theorem registration_initial_balance :
  (∀ now username email password_hash s user_id s',
     create_user now username email password_hash s = (Ok user_id, s') →
     ∃ u, get_user_by_id user_id s' = Some u ∧
          u_balance u = real_of_Z 10000 ∧
          u_username u = username ∧ u_email u = email ∧
          u_hashed_password u = password_hash) ∧
  (∀ strip hash_password generate_token now request_data s response s',
     register strip hash_password generate_token now request_data s = (Ok response, s') →
     rr_balance response = real_of_Z 10000 ∧
     ∃ u, get_user_by_id (rr_id response) s' = Some u ∧ u_balance u = real_of_Z 10000).
Proof.
  split.
  - intros now username email password_hash s user_id s' Hcreate.
    unfold get_user_by_id. rewrite (create_user_ok _ _ _ _ _ _ _ Hcreate). by eexists.
  - intros strip hash_password generate_token now request_data s response s'.
    unfold register. destruct (_ || _); [done|].
    destruct (get_user_by_username _ s); [done|].
    destruct (create_user _ _ _ _ s) as [[user_id|e] s1] eqn:Hcreate; [|done].
    unfold get_user_by_id. rewrite (create_user_ok _ _ _ _ _ _ _ Hcreate).
    intros [= <- <-]. cbn. split; [done|].
    rewrite (create_user_ok _ _ _ _ _ _ _ Hcreate). by eexists.
Qed.

Lemma registration_initial_balance_witness :
  ∃ u, get_user_by_id 2 (snd (create_user 3 "alice" "alice@example.com" "h" demo_db)) = Some u ∧
       u_balance u = real_of_Z 10000 ∧
       u_username u = "alice" ∧ u_email u = "alice@example.com" ∧
       u_hashed_password u = "h".
Proof.
  apply (proj1 registration_initial_balance 3 "alice" "alice@example.com" "h" demo_db 2%nat
           (snd (create_user 3 "alice" "alice@example.com" "h" demo_db))).
  vm_compute. reflexivity.
Defined.

(** A taken user name or email is refused, and nothing is stored. *)
Lemma create_user_duplicate now username email password_hash s uid u :
  users s !! uid = Some u → u_username u = username ∨ u_email u = email →
  create_user now username email password_hash s
  = (Raise (ValueError "User with this username or email already exists"), s).
Proof.
  intros Hu Hdup. unfold create_user. rewrite bool_decide_eq_true_2; [done|].
  apply map_Exists_lookup. eauto.
Qed.

(** ** The transaction log *)













(** The stable sort returns the two transactions of [ties_db] in insertion
    order, the reversing sort in the other order: both meet the query. *)
Lemma tie_order_depends_on_sort :
  (t_id ∘ tv_transaction) <$> get_user_transactions sort_desc_stable 1 ties_db
    = [1%nat; 2%nat] ∧
  (t_id ∘ tv_transaction) <$> get_user_transactions sort_desc_reversing 1 ties_db
    = [2%nat; 1%nat].
Proof. compute_done. Qed.

(** The logs that the trade engine writes name existing resources: trades
    and price updates keep [transactions_reference_resources]. *)
Lemma commit_reference_resources faults now user_id rid ty sq q price nb s res s' r :
  resources s !! rid = Some r →
  commit faults now user_id rid ty sq q price nb s = (res, s') →
  transactions_reference_resources s → transactions_reference_resources s'.
Proof.
  intros Hr Hcommit Href. unfold commit in Hcommit.
  assert (H1 : transactions_reference_resources (update_user_balance user_id nb s)).
  { intros t. destruct (update_user_balance_frame user_id nb s) as (_ & -> & _ & ->).
    apply Href. }
  destruct (position_step_frame faults now user_id rid sq price
              (update_user_balance user_id nb s)) as (_ & Hrs & Hts & _ & _).
  destruct (db_call faults CUpdatePosition _ _) as [[[]|e] s2]; cbn [snd] in *.
  2:{ destruct (faults CUpdateBalance); by injection Hcommit as <- <-. }
  assert (H2 : transactions_reference_resources s2).
  { intros t. rewrite Hrs, Hts. apply H1. }
  assert (H3 : transactions_reference_resources
                 (snd (create_transaction now user_id rid ty q price (q * price) s2))).
  { intros t. cbn [create_transaction snd transactions resources].
    intros [Ht|Ht]%elem_of_app; [by apply H2|].
    apply list_elem_of_singleton in Ht as ->. cbn. rewrite Hrs.
    destruct (update_user_balance_frame user_id nb s) as (_ & _ & _ & ->). by rewrite Hr. }
  destruct (faults CUpdateBalance); [by injection Hcommit as <- <-|].
  destruct (faults CCreateTransaction); [by injection Hcommit as <- <-|].
  destruct (faults CGetUpdatedUser); by injection Hcommit as <- <-.
Qed.

Lemma step_reference_resources e s :
  transactions_reference_resources s → transactions_reference_resources (step e s).
Proof.
  intros Href. destruct e as [faults now user_id td|now rid price]; cbn [step].
  - destruct (execute_trade faults now user_id td s) as [res s'] eqn:Hrun. cbn [snd].
    destruct (execute_trade_inv _ _ _ _ _ _ _ Hrun)
      as [[-> _]|(u & rid & r & sq & nb & Hval & Hcommit)]; [done|].
    destruct (get_resource_by_symbol_lookup _ _ _ _ (v_resource _ _ _ _ _ _ _ _ Hval))
      as [Hr _].
    by eapply commit_reference_resources.
  - intros t Ht. unfold update_resource_price in *.
    destruct (resources s !! rid) as [r|] eqn:Hr; [|by apply Href].
    cbn in *. destruct (decide (t_resource_id t = rid)) as [->|Hne].
    + by rewrite lookup_insert_eq.
    + rewrite lookup_insert_ne by done. by apply Href.
Qed.

Lemma run_reference_resources es : ∀ s,
  transactions_reference_resources s → transactions_reference_resources (run es s).
Proof.
  induction es as [|e es IH]; intros s Href; [done|].
  change (run (e :: es) s) with (run es (step e s)).
  by apply IH, step_reference_resources.
Qed.

(** * Further properties of the code *)

(** ** The checks of the trade handler *)

(** A trade type other than buy or sell, in whatever case, is refused with
    status 400 before the store is touched: no storage failure can change
    the answer. *)
Theorem trade_type_rejected faults now user_id td s :
  lower (trade_type td) ≠ "buy" → lower (trade_type td) ≠ "sell" →
  execute_trade faults now user_id td s = (Raise InvalidTradeType, s).
Proof.
  intros Hbuy Hsell. trade_unfold.
  rewrite bool_decide_eq_false_2; [done|].
  intros [?|[?|[]%elem_of_nil]%elem_of_cons]%elem_of_cons; done.
Qed.

Lemma trade_type_rejected_witness :
  execute_trade (fail_at CGetUser "disk I/O error") 1 1
    {| trade_type := "HOLD"; resource_symbol := "ENG"; quantity := real_of_Z 1 |} demo_db
  = (Raise InvalidTradeType, demo_db).
Proof. apply trade_type_rejected; vm_compute; discriminate. Defined.

(** An empty symbol, or a quantity of zero or less, is refused with status
    400 before the store is touched. *)
Theorem trade_argument_rejected faults now user_id td s :
  lower (trade_type td) = "buy" ∨ lower (trade_type td) = "sell" →
  resource_symbol td = "" ∨ quantity td ≤ 0 →
  execute_trade faults now user_id td s = (Raise InvalidArgument, s).
Proof.
  intros Hty Harg. trade_unfold.
  replace (bool_decide (lower (trade_type td) ∈ ["buy"; "sell"])) with true
    by (by destruct Hty as [-> | ->]; rewrite ?type_buy_ok, ?type_sell_ok).
  cbn [negb].
  destruct Harg as [Hsym|Hq].
  - by rewrite (bool_decide_eq_true_2 _ Hsym).
  - rewrite (bool_decide_eq_true_2 _ Hq). by rewrite orb_true_r.
Qed.

Lemma trade_argument_rejected_witness :
  execute_trade no_faults 1 1 (sell 0) demo_db = (Raise InvalidArgument, demo_db).
Proof.
  apply trade_argument_rejected.
  - right. reflexivity.
  - right. vm_compute. discriminate.
Defined.

(** A symbol that no resource carries is refused with status 404 and the
    store is left as it was, for a buy as for a sell. *)
Theorem trade_unknown_resource faults now user_id td s :
  lower (trade_type td) = "buy" ∨ lower (trade_type td) = "sell" →
  resource_symbol td ≠ "" → 0 < quantity td →
  faults CGetUser = None → faults CGetResource = None →
  get_resource_by_symbol (resource_symbol td) s = None →
  execute_trade faults now user_id td s = (Raise ResourceNotFound, s).
Proof.
  intros Hty Hsym Hq Hf1 Hf2 Hr. trade_unfold.
  replace (bool_decide (lower (trade_type td) ∈ ["buy"; "sell"])) with true
    by (by destruct Hty as [-> | ->]; rewrite ?type_buy_ok, ?type_sell_ok).
  cbn [negb].
  rewrite (bool_decide_eq_false_2 _ Hsym), (bool_decide_eq_false_2 (quantity td ≤ 0))
    by by apply Qclt_not_le.
  cbn [orb]. by rewrite Hf1, Hf2, Hr.
Qed.

Lemma trade_unknown_resource_witness :
  execute_trade no_faults 1 1
    {| trade_type := "buy"; resource_symbol := "XYZ"; quantity := real_of_Z 1 |} demo_db
  = (Raise ResourceNotFound, demo_db).
Proof.
  apply trade_unknown_resource.
  - left. reflexivity.
  - discriminate.
  - reflexivity.
  - reflexivity.
  - reflexivity.
  - reflexivity.
Defined.

(** A buy for a user id that has no row: [user_data] is [None], the funds
    check subscripts it, and the trade ends with status 500 carrying the
    text of the [TypeError]; nothing is written. *)
Theorem buy_unknown_user faults now user_id td s rid r :
  lower (trade_type td) = "buy" →
  resource_symbol td ≠ "" → 0 < quantity td →
  faults CGetUser = None → faults CGetResource = None →
  users s !! user_id = None →
  get_resource_by_symbol (resource_symbol td) s = Some (rid, r) →
  execute_trade faults now user_id td s
  = (Raise (HTTPException 500 "'NoneType' object is not subscriptable"), s).
Proof.
  intros Hty Hsym Hq Hf1 Hf2 Hu Hr.
  trade_unfold. rewrite Hty, type_buy_ok. cbn [negb].
  rewrite (bool_decide_eq_false_2 _ Hsym), (bool_decide_eq_false_2 (quantity td ≤ 0))
    by by apply Qclt_not_le.
  cbn [orb]. rewrite Hf1, Hf2. unfold get_user_by_id. rewrite Hu, Hr.
  by rewrite (bool_decide_eq_true_2 ("buy" = "buy")) by done.
Qed.

Lemma buy_unknown_user_witness :
  execute_trade no_faults 1 7 (buy 1) demo_db
  = (Raise (HTTPException 500 "'NoneType' object is not subscriptable"), demo_db).
Proof.
  apply (buy_unknown_user no_faults 1 7 (buy 1) demo_db 1
           {| r_symbol := "ENG"; r_name := "Energy Units";
              r_current_price := real_of_Z 100; r_volatility := Q2Qc (3 # 100);
              r_last_updated := 0 |}).
  - reflexivity.
  - discriminate.
  - reflexivity.
  - reflexivity.
  - reflexivity.
  - reflexivity.
  - reflexivity.
Defined.

(** ** Trades that go through *)

(** A buy of a resource that the user does not hold yet, with enough
    funds: the balance is debited by quantity times price, a position is
    created with that quantity at the current price, the transaction is
    appended, and the response carries its id and the new balance. *)
Theorem buy_opens_position faults now user_id td s u rid r :
  lower (trade_type td) = "buy" →
  resource_symbol td ≠ "" → 0 < quantity td →
  (∀ c, faults c = None) →
  users s !! user_id = Some u →
  get_resource_by_symbol (resource_symbol td) s = Some (rid, r) →
  ¬ u_balance u < quantity td * r_current_price r →
  positions s !! (user_id, rid) = None →
  let total_value := quantity td * r_current_price r in
  execute_trade faults now user_id td s
  = (Ok {| message := "Trade executed successfully";
           transaction_id := S (transactions_seq s);
           balance := u_balance u - total_value |},
     {| users := <[user_id := with_balance u (u_balance u - total_value)]> (users s);
        users_seq := users_seq s;
        resources := resources s; resources_seq := resources_seq s;
        positions :=
          <[(user_id, rid) :=
              {| p_id := S (positions_seq s); p_quantity := quantity td;
                 p_average_price := r_current_price r; p_created_at := now |}]> (positions s);
        positions_seq := S (positions_seq s);
        transactions := transactions s ++
          [{| t_id := S (transactions_seq s); t_user_id := user_id; t_resource_id := rid;
              t_transaction_type := "buy"; t_quantity := quantity td;
              t_price := r_current_price r; t_total_value := total_value;
              t_timestamp := now |}];
        transactions_seq := S (transactions_seq s) |}).
Proof.
  intros Hty Hsym Hq Hf Hu Hr Hfunds Hnone. cbv zeta.
  rewrite (execute_trade_validated faults now user_id td s u rid r (quantity td)
             (u_balance u - quantity td * r_current_price r)); [|split; auto|auto..].
  unfold commit, db_call. rewrite !Hf.
  rewrite create_or_update_position_insert
    by by destruct (update_user_balance_frame user_id
                      (u_balance u - quantity td * r_current_price r) s) as (-> & _).
  rewrite (update_user_balance_some _ _ _ _ Hu), Hty. done.
Qed.

Lemma buy_opens_position_witness :
  execute_trade no_faults 1 1 (buy 10) demo_db
  = (Ok {| message := "Trade executed successfully"; transaction_id := 1;
           balance := real_of_Z 10000 - real_of_Z 10 * real_of_Z 100 |},
     snd (execute_trade no_faults 1 1 (buy 10) demo_db)).
Proof.
  rewrite (buy_opens_position no_faults 1 1 (buy 10) demo_db
           {| u_username := "testuser"; u_email := "test@example.com";
              u_hashed_password := "hash"; u_balance := real_of_Z 10000;
              u_created_at := 0 |}
           1
           {| r_symbol := "ENG"; r_name := "Energy Units";
              r_current_price := real_of_Z 100; r_volatility := Q2Qc (3 # 100);
              r_last_updated := 0 |}).
  - reflexivity.
  - reflexivity.
  - discriminate.
  - reflexivity.
  - reflexivity.
  - reflexivity.
  - reflexivity.
  - vm_compute. discriminate.
  - reflexivity.
Defined.

(** A sell of exactly the quantity held: the balance is credited by
    quantity times price, the position record is deleted, the transaction
    is appended, and the response carries its id and the new balance. *)
Theorem sell_closes_position faults now user_id td s u rid r p :
  lower (trade_type td) = "sell" →
  resource_symbol td ≠ "" → 0 < quantity td →
  (∀ c, faults c = None) →
  users s !! user_id = Some u →
  get_resource_by_symbol (resource_symbol td) s = Some (rid, r) →
  positions s !! (user_id, rid) = Some p →
  p_quantity p = quantity td →
  let total_value := quantity td * r_current_price r in
  execute_trade faults now user_id td s
  = (Ok {| message := "Trade executed successfully";
           transaction_id := S (transactions_seq s);
           balance := u_balance u + total_value |},
     {| users := <[user_id := with_balance u (u_balance u + total_value)]> (users s);
        users_seq := users_seq s;
        resources := resources s; resources_seq := resources_seq s;
        positions := delete (user_id, rid) (positions s);
        positions_seq := positions_seq s;
        transactions := transactions s ++
          [{| t_id := S (transactions_seq s); t_user_id := user_id; t_resource_id := rid;
              t_transaction_type := "sell"; t_quantity := quantity td;
              t_price := r_current_price r; t_total_value := total_value;
              t_timestamp := now |}];
        transactions_seq := S (transactions_seq s) |}).
Proof.
  intros Hty Hsym Hq Hf Hu Hr Hp Hheld. cbv zeta.
  rewrite (execute_trade_validated faults now user_id td s u rid r (- quantity td)
             (u_balance u + quantity td * r_current_price r)); [| |auto..].
  2:{ split; auto. right. split; [done|]. split; [|done].
      exists p. split; [done|]. rewrite Hheld. intros Hlt. real_lra. }
  unfold commit, db_call. rewrite !Hf.
  erewrite create_or_update_position_delete.
  - rewrite (update_user_balance_some _ _ _ _ Hu), Hty. done.
  - by destruct (update_user_balance_frame user_id
                   (u_balance u + quantity td * r_current_price r) s) as (-> & _).
  - rewrite Hheld. real_lra.
Qed.

Lemma sell_closes_position_witness :
  execute_trade no_faults 3 1 (sell 10) after_first_buy
  = (Ok {| message := "Trade executed successfully"; transaction_id := 2;
           balance := real_of_Z 10000 - real_of_Z 10 * real_of_Z 100
                      + real_of_Z 10 * real_of_Z 120 |},
     snd (execute_trade no_faults 3 1 (sell 10) after_first_buy)).
Proof.
  rewrite (sell_closes_position no_faults 3 1 (sell 10) after_first_buy
           {| u_username := "testuser"; u_email := "test@example.com";
              u_hashed_password := "hash";
              u_balance := real_of_Z 10000 - real_of_Z 10 * real_of_Z 100;
              u_created_at := 0 |}
           1
           {| r_symbol := "ENG"; r_name := "Energy Units";
              r_current_price := real_of_Z 120; r_volatility := Q2Qc (3 # 100);
              r_last_updated := 2 |}
           {| p_id := 1; p_quantity := real_of_Z 10; p_average_price := real_of_Z 100;
              p_created_at := 1 |}).
  - reflexivity.
  - reflexivity.
  - discriminate.
  - reflexivity.
  - reflexivity.
  - vm_compute. reflexivity.
  - vm_compute. reflexivity.
  - vm_compute. reflexivity.
  - reflexivity.
Defined.

(** ** What every trade keeps *)

(** The stores that a trade can leave: the one it found, or a stage of the
    storage steps of a checked order. *)
Lemma execute_trade_stages faults now user_id td s :
  let s' := snd (execute_trade faults now user_id td s) in
  s' = s ∨
  ∃ u rid r sq nb,
    validated user_id td s u rid r sq nb ∧
    let s1 := update_user_balance user_id nb s in
    s' = s1 ∨
    ∃ s2, create_or_update_position now user_id rid sq (r_current_price r) s1 = (Ok tt, s2) ∧
          (s' = s2 ∨
           s' = snd (create_transaction now user_id rid (lower (trade_type td)) (quantity td)
                       (r_current_price r) (quantity td * r_current_price r) s2)).
Proof.
  cbv zeta. destruct (execute_trade faults now user_id td s) as [res s'] eqn:Hrun. cbn [snd].
  destruct (execute_trade_inv _ _ _ _ _ _ _ Hrun)
    as [[-> _]|(u & rid & r & sq & nb & Hval & Hcommit)]; [by left|].
  unfold commit, db_call in Hcommit.
  destruct (faults CUpdateBalance); [injection Hcommit as _ ->; by left|].
  right. exists u, rid, r, sq, nb. split; [done|].
  destruct (faults CUpdatePosition); [injection Hcommit as _ ->; by left|].
  destruct (create_or_update_position _ _ _ _ _ _) as [[[]|e] s2] eqn:Hstep;
    [|injection Hcommit as _ ->; by left].
  right. exists s2. split; [done|].
  destruct (faults CCreateTransaction); [injection Hcommit as _ ->; by left|].
  destruct (faults CGetUpdatedUser); injection Hcommit as _ ->; by right.
Qed.

(** A property of the store that the three writes of a checked order keep
    is kept by every trade, whatever fails on the way. *)
Lemma execute_trade_preserves (P : db → Prop) faults now user_id td s :
  P s →
  (∀ u rid r sq nb,
     validated user_id td s u rid r sq nb →
     P (update_user_balance user_id nb s) ∧
     ∀ s2,
       create_or_update_position now user_id rid sq (r_current_price r)
         (update_user_balance user_id nb s) = (Ok tt, s2) →
       P s2 ∧
       P (snd (create_transaction now user_id rid (lower (trade_type td)) (quantity td)
                 (r_current_price r) (quantity td * r_current_price r) s2))) →
  P (snd (execute_trade faults now user_id td s)).
Proof.
  intros Hs Hstages.
  destruct (execute_trade_stages faults now user_id td s)
    as [->|(u & rid & r & sq & nb & Hval & Hcases)]; [done|].
  destruct (Hstages _ _ _ _ _ Hval) as [H1 H23]. cbv zeta in Hcases.
  destruct Hcases as [->|(s2 & Hstep & [->| ->])]; [done|by apply H23..].
Qed.

Lemma run_preserves (P : db → Prop) (Q : event → Prop) es :
  (∀ e s, Q e → P s → P (step e s)) →
  ∀ s, Forall Q es → P s → P (run es s).
Proof.
  intros Hstep. induction es as [|e es IH]; intros s Hes Hs; [done|].
  apply Forall_cons in Hes as [He Hes].
  change (run (e :: es) s) with (run es (step e s)). apply IH; [done|]. by apply Hstep.
Qed.

(** The position step of a checked order that returns: it deleted the
    record, or it inserted one with the signed quantity of the fill. *)
Lemma create_or_update_position_ok now user_id rid sq price s s2 :
  create_or_update_position now user_id rid sq price s = (Ok tt, s2) →
  s2 = set_positions (delete (user_id, rid)) s ∨
  (positions s !! (user_id, rid) = None ∧
   s2 = {| users := users s; users_seq := users_seq s;
           resources := resources s; resources_seq := resources_seq s;
           positions :=
             <[(user_id, rid) :=
                 {| p_id := S (positions_seq s); p_quantity := sq;
                    p_average_price := price; p_created_at := now |}]> (positions s);
           positions_seq := S (positions_seq s);
           transactions := transactions s; transactions_seq := transactions_seq s |}).
Proof.
  intros Hstep.
  destruct (create_or_update_position_cases now user_id rid sq price s)
    as [(e & _ & _ & H)|[(e & _ & _ & H)|[Hnone H]]]; rewrite H in Hstep.
  - done.
  - injection Hstep as <-. by left.
  - injection Hstep as <-. by right.
Qed.

Lemma execute_trade_resources faults now user_id td s :
  resources (snd (execute_trade faults now user_id td s)) = resources s.
Proof.
  apply (execute_trade_preserves (λ s', resources s' = resources s)); [done|].
  intros u rid r sq nb Hval.
  destruct (update_user_balance_frame user_id nb s) as (_ & _ & _ & Hr).
  split; [done|]. intros s2 Hstep.
  destruct (create_or_update_position_ok _ _ _ _ _ _ _ Hstep) as [->|[_ ->]]; by cbn.
Qed.

(** The trade engine reads the price store and never writes it, and a
    trade of one user touches no other user: the resources, the rows of
    the other users and their positions are what they were, whatever the
    order and whatever fails. *)
Theorem execute_trade_frame faults now user_id td s :
  let s' := snd (execute_trade faults now user_id td s) in
  resources s' = resources s ∧ resources_seq s' = resources_seq s ∧
  users_seq s' = users_seq s ∧
  (∀ k, k ≠ user_id → users s' !! k = users s !! k) ∧
  (∀ k rid, k ≠ user_id → positions s' !! (k, rid) = positions s !! (k, rid)).
Proof.
  cbv zeta.
  apply (execute_trade_preserves (λ s',
    resources s' = resources s ∧ resources_seq s' = resources_seq s ∧
    users_seq s' = users_seq s ∧
    (∀ k, k ≠ user_id → users s' !! k = users s !! k) ∧
    (∀ k rid, k ≠ user_id → positions s' !! (k, rid) = positions s !! (k, rid)))); [done|].
  intros u rid r sq nb Hval.
  rewrite (update_user_balance_some _ _ _ _ (v_user _ _ _ _ _ _ _ _ Hval)).
  split.
  { cbn. repeat split; try done. intros k Hk. by rewrite lookup_insert_ne. }
  intros s2 Hstep.
  destruct (create_or_update_position_ok _ _ _ _ _ _ _ Hstep) as [->|[_ ->]]; cbn.
  - repeat split; try done.
    + intros k Hk. by rewrite lookup_insert_ne.
    + intros k rid' Hk. rewrite lookup_delete_ne; [done|congruence].
    + intros k Hk. by rewrite lookup_insert_ne.
    + intros k rid' Hk. rewrite lookup_delete_ne; [done|congruence].
  - repeat split; try done.
    + intros k Hk. by rewrite lookup_insert_ne.
    + intros k rid' Hk. rewrite lookup_insert_ne; [done|congruence].
    + intros k Hk. by rewrite lookup_insert_ne.
    + intros k rid' Hk. rewrite lookup_insert_ne; [done|congruence].
Qed.

Lemma create_transaction_store now user_id rid ty q price total s :
  snd (create_transaction now user_id rid ty q price total s)
  = {| users := users s; users_seq := users_seq s;
       resources := resources s; resources_seq := resources_seq s;
       positions := positions s; positions_seq := positions_seq s;
       transactions := transactions s ++
         [{| t_id := S (transactions_seq s); t_user_id := user_id; t_resource_id := rid;
             t_transaction_type := ty; t_quantity := q; t_price := price;
             t_total_value := total; t_timestamp := now |}];
       transactions_seq := S (transactions_seq s) |}.
Proof. reflexivity. Qed.

(** What the position step of a checked order leaves of the log. *)
Lemma create_or_update_position_ok_log now user_id rid sq price s s2 :
  create_or_update_position now user_id rid sq price s = (Ok tt, s2) →
  transactions s2 = transactions s ∧ transactions_seq s2 = transactions_seq s ∧
  users s2 = users s ∧ resources s2 = resources s.
Proof.
  intros Hstep. by destruct (create_or_update_position_ok _ _ _ _ _ _ _ Hstep) as [->|[_ ->]].
Qed.

(** A property of the log alone that an append of the row of the trade
    keeps is kept by the trade. *)
Lemma execute_trade_preserves_log (P : list transaction_row → nat → Prop)
    faults now user_id td s :
  P (transactions s) (transactions_seq s) →
  (∀ u rid r sq nb,
     validated user_id td s u rid r sq nb →
     P (transactions s ++
          [{| t_id := S (transactions_seq s); t_user_id := user_id; t_resource_id := rid;
              t_transaction_type := lower (trade_type td); t_quantity := quantity td;
              t_price := r_current_price r;
              t_total_value := quantity td * r_current_price r; t_timestamp := now |}])%list
       (S (transactions_seq s))) →
  let s' := snd (execute_trade faults now user_id td s) in
  P (transactions s') (transactions_seq s').
Proof.
  intros Hs Happend. cbv zeta.
  apply (execute_trade_preserves (λ s', P (transactions s') (transactions_seq s'))); [done|].
  intros u rid r sq nb Hval.
  destruct (update_user_balance_frame user_id nb s) as (_ & Ht & Hseq & _).
  split; [by rewrite Ht, Hseq|]. intros s2 Hstep.
  destruct (create_or_update_position_ok_log _ _ _ _ _ _ _ Hstep) as (Ht2 & Hseq2 & _).
  split; [by rewrite Ht2, Hseq2, Ht, Hseq|].
  rewrite create_transaction_store. cbn. rewrite Ht2, Hseq2, Ht, Hseq. by eapply Happend.
Qed.

Lemma step_log (P : list transaction_row → nat → Prop) e s :
  P (transactions s) (transactions_seq s) →
  (∀ t, t_id t = S (transactions_seq s) → engine_transaction t →
        P (transactions s ++ [t])%list (S (transactions_seq s))) →
  P (transactions (step e s)) (transactions_seq (step e s)).
Proof.
  intros Hs Happend. destruct e as [faults now user_id td|now rid price]; cbn [step].
  - apply execute_trade_preserves_log; [done|].
    intros u rid r sq nb [_ Hq _ _ Hside]. apply Happend; [done|].
    split; [done|]. split; [|done]. cbn.
    by destruct Hside as [(-> & _)|(-> & _)]; [left|right].
  - unfold update_resource_price. by destruct (resources s !! rid).
Qed.

(** The log is append-only: whatever trades and price updates run, with
    whatever failures, the transactions recorded before are still there,
    unchanged and in the same places, and a trade adds at most one. *)
Theorem run_log_append_only es s :
  transactions s `prefix_of` transactions (run es s) ∧
  (length (transactions (run es s)) ≤ length (transactions s) + length es)%nat.
Proof.
  revert s. induction es as [|e es IH]; intros s.
  { split; [done|]. cbn. lia. }
  change (run (e :: es) s) with (run es (step e s)).
  destruct (IH (step e s)) as [Hpre Hlen].
  assert (Hstep : transactions s `prefix_of` transactions (step e s) ∧
                  (length (transactions (step e s)) ≤ S (length (transactions s)))%nat).
  { apply (step_log (λ l _, transactions s `prefix_of` l ∧
                            (length l ≤ S (length (transactions s)))%nat)).
    - split; [done|lia].
    - intros t _ _. split; [by apply prefix_app_r|]. rewrite length_app. cbn. lia. }
  destruct Hstep as [Hpre1 Hlen1]. split.
  - by etrans.
  - cbn [length]. lia.
Qed.

Lemma StronglySorted_snoc_lt (l : list nat) (n : nat) :
  StronglySorted lt l → Forall (λ m, (m < n)%nat) l → StronglySorted lt (l ++ [n])%list.
Proof.
  induction 1 as [|m l Hsorted IH Hall]; intros Hlt; cbn.
  - repeat constructor.
  - apply Forall_cons in Hlt as [Hm Hlt]. constructor; [by apply IH|].
    apply Forall_app. split; [done|]. by constructor.
Qed.

(** Transaction ids are unique and increase along the log, and stay so
    whatever trades and price updates run. *)
Theorem run_transaction_ids es s :
  log_ids_ordered s →
  log_ids_ordered (run es s) ∧ NoDup (t_id <$> transactions (run es s)).
Proof.
  intros Hs.
  assert (Hrun : log_ids_ordered (run es s)).
  { apply (run_preserves log_ids_ordered (λ _, True)); [|by apply Forall_true|done].
    intros e s0 _ Hs0.
    apply (step_log (λ l n, StronglySorted lt (t_id <$> l) ∧
                            Forall (λ t, (t_id t ≤ n)%nat) l)); [done|].
    intros t Hid _. destruct Hs0 as [Hsorted Hbound]. split.
    - rewrite fmap_app. cbn. apply StronglySorted_snoc_lt; [done|].
      apply Forall_fmap. eapply Forall_impl; [exact Hbound|]. cbn. intros; lia.
    - apply Forall_app. split.
      + eapply Forall_impl; [exact Hbound|]. cbn. intros; lia.
      + constructor; [lia|constructor]. }
  split; [done|]. destruct Hrun as [Hsorted _].
  induction Hsorted as [|n l _ IH Hall]; constructor; [|done].
  intros Hin. rewrite Forall_forall in Hall. specialize (Hall n Hin). lia.
Qed.

Lemma log_ids_ordered_demo : log_ids_ordered demo_db.
Proof. split; constructor. Qed.

Lemma run_transaction_ids_witness :
  log_ids_ordered (run round_trip demo_db) ∧
  NoDup (t_id <$> transactions (run round_trip demo_db)).
Proof. apply (run_transaction_ids round_trip demo_db). apply log_ids_ordered_demo. Defined.

(** Every row that the trade engine records has a positive quantity, the
    type buy or sell, and a total value equal to quantity times price. *)
Theorem run_engine_transactions es s :
  Forall engine_transaction (transactions s) →
  Forall engine_transaction (transactions (run es s)).
Proof.
  apply (run_preserves (λ s, Forall engine_transaction (transactions s)) (λ _, True));
    [|by apply Forall_true].
  intros e s0 _ Hs0.
  apply (step_log (λ l _, Forall engine_transaction l)); [done|].
  intros t _ Ht. apply Forall_app. split; [done|]. by constructor.
Qed.

Lemma run_engine_transactions_witness :
  Forall engine_transaction (transactions (run round_trip demo_db)).
Proof. apply (run_engine_transactions round_trip demo_db). constructor. Defined.

(** No trade and no price update, whatever fails on the way, leaves a
    position record with a quantity of zero or less: a buy stores a
    positive quantity, and a sell deletes the record or leaves it. *)
Theorem run_positions_positive es s :
  positions_positive s → positions_positive (run es s).
Proof.
  apply (run_preserves positions_positive (λ _, True)); [|by apply Forall_true].
  intros e s0 _ Hs0. destruct e as [faults now user_id td|now rid price]; cbn [step].
  2:{ unfold update_resource_price. by destruct (resources s0 !! rid). }
  apply execute_trade_preserves; [done|].
  intros u rid r sq nb Hval.
  destruct (update_user_balance_frame user_id nb s0) as (Hp & _).
  assert (H1 : positions_positive (update_user_balance user_id nb s0)).
  { intros k p. rewrite Hp. apply Hs0. }
  split; [done|]. intros s2 Hstep.
  assert (H2 : positions_positive s2).
  { destruct (create_or_update_position_ok _ _ _ _ _ _ _ Hstep) as [->|[Hnone ->]].
    - intros k p Hk. cbn in Hk. apply lookup_delete_Some in Hk as [_ Hk]. by eapply H1.
    - intros k p Hk. cbn in Hk. apply lookup_insert_Some in Hk as [[_ <-]|[_ Hk]].
      + cbn. rewrite Hp in Hnone.
        destruct Hval as [_ Hq _ _ [(_ & _ & -> & _)|(_ & (p & Hsome & _) & _)]];
          [done|congruence].
      + by eapply H1. }
  split; [done|]. intros k p. rewrite create_transaction_store. cbn. apply H2.
Qed.

Lemma run_positions_positive_witness : positions_positive (run round_trip demo_db).
Proof. apply (run_positions_positive round_trip demo_db). apply positions_positive_empty. Defined.

(** The cash balance never goes below zero: from a store with no negative
    balance and no negative price, no sequence of trades and of updates to
    non-negative prices, whatever fails on the way, leaves a negative
    balance. A buy is refused unless the balance covers it, and a sell only
    adds to the balance. *)
Theorem run_balances_nonneg es s :
  balances_nonneg s → prices_nonneg s → Forall price_event_nonneg es →
  balances_nonneg (run es s) ∧ prices_nonneg (run es s).
Proof.
  intros Hb Hp Hes.
  apply (run_preserves (λ s, balances_nonneg s ∧ prices_nonneg s) price_event_nonneg);
    [|done|done].
  clear. intros e s He [Hb Hp].
  destruct e as [faults now user_id td|now rid price]; cbn [step].
  - pose proof (execute_trade_resources faults now user_id td s) as Hr.
    split; [|intros k r; rewrite Hr; apply Hp].
    apply execute_trade_preserves; [done|].
    intros u rid r sq nb Hval.
    assert (Hnb : 0 ≤ nb).
    { destruct Hval as [_ Hq Hu Hres Hside].
      pose proof (Hb _ _ Hu) as Hbal.
      destruct (get_resource_by_symbol_lookup _ _ _ _ Hres) as [Hrow _].
      pose proof (Hp _ _ Hrow) as Hprice.
      destruct Hside as [(_ & Hfunds & _ & ->)|(_ & _ & _ & ->)].
      - apply Qcnot_lt_le in Hfunds. clear -Hfunds. real_lra.
      - apply Qcplus_nonneg_nonneg; [done|].
        apply Qcmult_nonneg_nonneg; [by apply Qclt_le_weak|done]. }
    assert (H1 : balances_nonneg (update_user_balance user_id nb s)).
    { rewrite (update_user_balance_some _ _ _ _ (v_user _ _ _ _ _ _ _ _ Hval)).
      intros k u' Hk. cbn in Hk. apply lookup_insert_Some in Hk as [[_ <-]|[_ Hk]];
        [done|by eapply Hb]. }
    split; [done|]. intros s2 Hstep.
    destruct (create_or_update_position_ok_log _ _ _ _ _ _ _ Hstep) as (_ & _ & Hus & _).
    split; intros k u'; rewrite ?create_transaction_store; cbn; rewrite Hus; apply H1.
  - unfold update_resource_price. destruct (resources s !! rid) as [r|]; [|done].
    split; [done|]. intros k r' Hk. cbn in Hk.
    apply lookup_insert_Some in Hk as [[_ <-]|[_ Hk]]; [done|by eapply Hp].
Qed.

Lemma demo_db_users :
  users demo_db
  = <[1%nat := {| u_username := "testuser"; u_email := "test@example.com";
                  u_hashed_password := "hash"; u_balance := real_of_Z 10000;
                  u_created_at := 0 |}]> ∅.
Proof. reflexivity. Qed.

Lemma demo_db_nonneg : balances_nonneg demo_db ∧ prices_nonneg demo_db.
Proof.
  split.
  - intros k u Hk. rewrite demo_db_users in Hk.
    apply lookup_insert_Some in Hk as [[_ <-]|[_ Hk]];
      [by vm_compute|by rewrite lookup_empty in Hk].
  - intros k r Hk. cbn [demo_db resources] in Hk.
    apply lookup_singleton_Some in Hk as [_ <-]. by vm_compute.
Qed.

Lemma run_balances_nonneg_witness :
  balances_nonneg (run round_trip demo_db) ∧ prices_nonneg (run round_trip demo_db).
Proof.
  apply (run_balances_nonneg round_trip demo_db).
  - apply demo_db_nonneg.
  - apply demo_db_nonneg.
  - repeat constructor. by vm_compute.
Defined.

(** The general form of the failing update: an order that passed the
    checks and whose fill leaves a positive quantity on an existing record
    ends with status 500, with the balance already updated. *)
Lemma execute_trade_update_raises_witness :
  execute_trade no_faults 3 1 (buy 10) after_first_buy
  = (Raise (HTTPException 500 "No item with that key"),
     update_user_balance 1
       (real_of_Z 10000 - real_of_Z 10 * real_of_Z 100 - real_of_Z 10 * real_of_Z 120)
       after_first_buy).
Proof.
  apply (execute_trade_update_raises no_faults 3 1 (buy 10) after_first_buy
           {| u_username := "testuser"; u_email := "test@example.com";
              u_hashed_password := "hash";
              u_balance := real_of_Z 10000 - real_of_Z 10 * real_of_Z 100;
              u_created_at := 0 |}
           1
           {| r_symbol := "ENG"; r_name := "Energy Units";
              r_current_price := real_of_Z 120; r_volatility := Q2Qc (3 # 100);
              r_last_updated := 2 |}
           (real_of_Z 10)
           (real_of_Z 10000 - real_of_Z 10 * real_of_Z 100 - real_of_Z 10 * real_of_Z 120)
           {| p_id := 1; p_quantity := real_of_Z 10; p_average_price := real_of_Z 100;
              p_created_at := 1 |}).
  - split.
    + discriminate.
    + reflexivity.
    + vm_compute. reflexivity.
    + vm_compute. reflexivity.
    + left. split; [reflexivity|]. split; [vm_compute; discriminate|]. split; reflexivity.
  - reflexivity.
  - vm_compute. reflexivity.
  - reflexivity.
Defined.

(** ** Look-ups by a unique column *)

Lemma get_resource_by_symbol_None symbol s :
  get_resource_by_symbol symbol s = None ↔
  ∀ k r, resources s !! k = Some r → r_symbol r ≠ symbol.
Proof.
  unfold get_resource_by_symbol. rewrite fmap_None, list_find_None, Forall_forall. split.
  - intros H k r Hk. apply (H (k, r)). by apply elem_of_map_to_list.
  - intros H [k r] Hk. apply (H k r). by apply elem_of_map_to_list.
Qed.

Lemma get_resource_by_symbol_cases symbol s :
  match get_resource_by_symbol symbol s with
  | Some (rid, r) => resources s !! rid = Some r ∧ r_symbol r = symbol
  | None => ∀ k r, resources s !! k = Some r → r_symbol r ≠ symbol
  end.
Proof.
  destruct (get_resource_by_symbol symbol s) as [[rid r]|] eqn:H.
  - by apply get_resource_by_symbol_lookup.
  - by apply get_resource_by_symbol_None.
Qed.

Lemma get_resource_by_symbol_unique s rid r :
  symbols_unique s → resources s !! rid = Some r →
  get_resource_by_symbol (r_symbol r) s = Some (rid, r).
Proof.
  intros Huniq Hr.
  pose proof (get_resource_by_symbol_cases (r_symbol r) s) as Hspec.
  destruct (get_resource_by_symbol (r_symbol r) s) as [[k r']|].
  - destruct Hspec as [Hk Hsym].
    assert (k = rid) as -> by by eapply Huniq. congruence.
  - by destruct (Hspec _ _ Hr).
Qed.

(** The look-up by symbol is the inverse of the symbol column: with unique
    symbols [get_resource_by_symbol] returns an id and a row exactly when
    that row is stored under that id and carries the symbol, and it returns
    nothing exactly when no stored row carries the symbol. *)
Theorem get_resource_by_symbol_spec symbol s :
  symbols_unique s →
  (∀ rid r, get_resource_by_symbol symbol s = Some (rid, r) ↔
            resources s !! rid = Some r ∧ r_symbol r = symbol) ∧
  (get_resource_by_symbol symbol s = None ↔
   ∀ k r, resources s !! k = Some r → r_symbol r ≠ symbol).
Proof.
  intros Huniq. split; [|apply get_resource_by_symbol_None].
  intros rid r. split; [apply get_resource_by_symbol_lookup|].
  intros [Hr <-]. by apply get_resource_by_symbol_unique.
Qed.

Lemma update_resource_price_unique now rid price s :
  symbols_unique s → symbols_unique (update_resource_price now rid price s).
Proof.
  intros Huniq. unfold update_resource_price.
  destruct (resources s !! rid) as [r|] eqn:Hr; [|done].
  intros k1 r1 k2 r2. cbn. rewrite !lookup_insert_Some.
  intros [[<- <-]|[Hne1 H1]] [[<- <-]|[Hne2 H2]]; cbn; intros Hsym; try done.
  - by eapply Huniq.
  - by eapply Huniq.
  - by eapply Huniq.
Qed.

(** A price that was set is the price that is read: with unique symbols,
    after [update_resource_price] the look-up by the symbol of the resource
    returns that resource with the new price and the new time, and the
    look-up of any other symbol answers as before. *)
Theorem update_resource_price_read_back now rid price s r :
  symbols_unique s → resources s !! rid = Some r →
  let s' := update_resource_price now rid price s in
  get_resource_by_symbol (r_symbol r) s' = Some (rid, with_price r price now) ∧
  ∀ symbol, symbol ≠ r_symbol r →
    get_resource_by_symbol symbol s' = get_resource_by_symbol symbol s.
Proof.
  intros Huniq Hr. cbv zeta.
  pose proof (update_resource_price_unique now rid price s Huniq) as Huniq'.
  assert (Hs' : resources (update_resource_price now rid price s)
                = <[rid := with_price r price now]> (resources s)).
  { unfold update_resource_price. by rewrite Hr. }
  split.
  - apply (get_resource_by_symbol_unique _ rid (with_price r price now)); [done|].
    by rewrite Hs', lookup_insert_eq.
  - intros symbol Hsym.
    pose proof (get_resource_by_symbol_cases symbol s) as Hspec.
    destruct (get_resource_by_symbol symbol s) as [[k r']|].
    + destruct Hspec as [Hk <-].
      assert (k ≠ rid) by congruence.
      apply (get_resource_by_symbol_unique _ k r'); [done|].
      by rewrite Hs', lookup_insert_ne.
    + apply get_resource_by_symbol_None. intros k r'. rewrite Hs', lookup_insert_Some.
      intros [[<- <-]|[_ Hk]]; [done|by eapply Hspec].
Qed.

Lemma demo_db_symbols_unique : symbols_unique demo_db.
Proof.
  intros k1 r1 k2 r2 H1 H2 _. cbn [demo_db resources] in H1, H2.
  apply lookup_singleton_Some in H1 as [<- _]. by apply lookup_singleton_Some in H2 as [<- _].
Qed.

Lemma update_resource_price_read_back_witness :
  let s' := update_resource_price 2 1 (real_of_Z 120) demo_db in
  get_resource_by_symbol "ENG" s'
  = Some (1%nat, {| r_symbol := "ENG"; r_name := "Energy Units";
                    r_current_price := real_of_Z 120; r_volatility := Q2Qc (3 # 100);
                    r_last_updated := 2 |}) ∧
  ∀ symbol, symbol ≠ "ENG" →
    get_resource_by_symbol symbol s' = get_resource_by_symbol symbol demo_db.
Proof.
  apply (update_resource_price_read_back 2 1 (real_of_Z 120) demo_db
           {| r_symbol := "ENG"; r_name := "Energy Units";
              r_current_price := real_of_Z 100; r_volatility := Q2Qc (3 # 100);
              r_last_updated := 0 |}).
  - apply demo_db_symbols_unique.
  - reflexivity.
Defined.

Lemma get_resource_by_symbol_spec_witness :
  (∀ rid r, get_resource_by_symbol "ENG" demo_db = Some (rid, r) ↔
            resources demo_db !! rid = Some r ∧ r_symbol r = "ENG") ∧
  (get_resource_by_symbol "ENG" demo_db = None ↔
   ∀ k r, resources demo_db !! k = Some r → r_symbol r ≠ "ENG").
Proof. apply (get_resource_by_symbol_spec "ENG" demo_db). apply demo_db_symbols_unique. Defined.

Lemma get_user_by_username_None username s :
  get_user_by_username username s = None ↔
  ∀ k u, users s !! k = Some u → u_username u ≠ username.
Proof.
  unfold get_user_by_username. rewrite fmap_None, list_find_None, Forall_forall. split.
  - intros H k u Hk. apply (H (k, u)). by apply elem_of_map_to_list.
  - intros H [k u] Hk. apply (H k u). by apply elem_of_map_to_list.
Qed.

Lemma get_user_by_username_Some username s uid u :
  get_user_by_username username s = Some (uid, u) →
  users s !! uid = Some u ∧ u_username u = username.
Proof.
  unfold get_user_by_username. intros H.
  apply fmap_Some in H as ([i kv] & Hfind & Hkv). cbn in Hkv. subst kv.
  apply list_find_Some in Hfind as (Hi & Hname & _). cbn in Hname.
  split; [|done]. apply elem_of_map_to_list. by eapply list_elem_of_lookup_2.
Qed.

Lemma create_user_lookup now username email password_hash s user_id s' :
  create_user now username email password_hash s = (Ok user_id, s') →
  (∀ k u, users s !! k = Some u → u_username u ≠ username) ∧
  users s' = <[user_id := {| u_username := username; u_email := email;
                             u_hashed_password := password_hash;
                             u_balance := real_of_Z 10000; u_created_at := now |}]> (users s) ∧
  get_user_by_username username s'
  = Some (user_id,
          {| u_username := username; u_email := email; u_hashed_password := password_hash;
             u_balance := real_of_Z 10000; u_created_at := now |}).
Proof.
  intros Hcreate. pose proof (create_user_ok _ _ _ _ _ _ _ Hcreate) as Hrow.
  revert Hcreate. unfold create_user. case_bool_decide as Hfree; [done|].
  intros [= <- <-]. cbn in Hrow.
  assert (Hold : ∀ k u, users s !! k = Some u → u_username u ≠ username).
  { intros k u Hk Hname. apply Hfree, map_Exists_lookup. eauto. }
  split; [done|]. split; [done|].
  destruct (get_user_by_username username _) as [[k u]|] eqn:Hfind.
  - apply get_user_by_username_Some in Hfind as [Hk Hname]. cbn in Hk.
    apply lookup_insert_Some in Hk as [[<- <-]|[_ Hk]]; [done|].
    by destruct (Hold _ _ Hk).
  - rewrite get_user_by_username_None in Hfind. cbn in Hfind.
    by destruct (Hfind _ _ (lookup_insert_eq _ _ _)).
Qed.

(** A user that was created is the user that is found: after a successful
    [create_user] the look-up by the new name returns the new id with the
    stored row, and names that were unique stay unique. *)
Theorem create_user_found now username email password_hash s user_id s' :
  create_user now username email password_hash s = (Ok user_id, s') →
  get_user_by_username username s'
  = Some (user_id,
          {| u_username := username; u_email := email; u_hashed_password := password_hash;
             u_balance := real_of_Z 10000; u_created_at := now |}) ∧
  (usernames_unique s → usernames_unique s').
Proof.
  intros Hcreate.
  destruct (create_user_lookup _ _ _ _ _ _ _ Hcreate) as (Hold & Hs' & Hfind).
  split; [done|].
  intros Huniq k1 u1 k2 u2. rewrite Hs', !lookup_insert_Some.
  intros [[<- <-]|[Hne1 H1]] [[<- <-]|[Hne2 H2]]; cbn; intros Hname; try done.
  - by destruct (Hold _ _ H2).
  - by destruct (Hold _ _ H1).
  - by eapply Huniq.
Qed.

Lemma create_user_found_witness :
  get_user_by_username "alice" (snd (create_user 3 "alice" "alice@example.com" "h" demo_db))
  = Some (2%nat,
          {| u_username := "alice"; u_email := "alice@example.com";
             u_hashed_password := "h"; u_balance := real_of_Z 10000; u_created_at := 3 |}) ∧
  (usernames_unique demo_db →
   usernames_unique (snd (create_user 3 "alice" "alice@example.com" "h" demo_db))).
Proof.
  apply (create_user_found 3 "alice" "alice@example.com" "h" demo_db 2%nat).
  vm_compute. reflexivity.
Defined.


(** ** Registration and login *)

(** A registration with a missing field (after stripping, for the name and
    the email) is refused with status 400 and nothing is stored. *)
Theorem register_missing_field strip hash_password generate_token now request_data s :
  strip (rq_username request_data) = "" ∨ strip (rq_email request_data) = "" ∨
  rq_password request_data = "" →
  register strip hash_password generate_token now request_data s
  = (Raise (HTTPException 400 "Username, email, and password are required"), s).
Proof.
  intros H. unfold register.
  replace (_ || _ || _) with true; [done|]. symmetry.
  destruct H as [H|[H|H]]; rewrite (bool_decide_eq_true_2 _ H);
    by rewrite ?orb_true_r.
Qed.

Lemma register_missing_field_witness :
  register id demo_hash demo_token 3
    {| rq_username := "alice"; rq_email := ""; rq_password := "secret" |} demo_db
  = (Raise (HTTPException 400 "Username, email, and password are required"), demo_db).
Proof. apply register_missing_field. right. left. reflexivity. Defined.

(** A registration under a name or an email that a stored user already has
    is refused with status 400 and nothing is stored; the detail tells a
    taken name from a taken email. *)
Theorem register_taken strip hash_password generate_token now request_data s k u :
  strip (rq_username request_data) ≠ "" → strip (rq_email request_data) ≠ "" →
  rq_password request_data ≠ "" →
  users s !! k = Some u →
  u_username u = strip (rq_username request_data) ∨
  u_email u = strip (rq_email request_data) →
  register strip hash_password generate_token now request_data s
  = (Raise (HTTPException 400
       match get_user_by_username (strip (rq_username request_data)) s with
       | Some _ => "Username already registered"
       | None => "User with this username or email already exists"
       end), s).
Proof.
  intros Hn He Hp Hk Hdup. unfold register.
  rewrite (bool_decide_eq_false_2 _ Hn), (bool_decide_eq_false_2 _ He),
    (bool_decide_eq_false_2 _ Hp). cbn [orb].
  destruct (get_user_by_username _ s); [done|].
  by rewrite (create_user_duplicate _ _ _ _ _ k u Hk Hdup).
Qed.

Lemma register_taken_witness :
  register id demo_hash demo_token 3
    {| rq_username := "bob"; rq_email := "test@example.com"; rq_password := "secret" |}
    demo_db
  = (Raise (HTTPException 400 "User with this username or email already exists"), demo_db).
Proof.
  apply (register_taken id demo_hash demo_token 3
           {| rq_username := "bob"; rq_email := "test@example.com";
              rq_password := "secret" |} demo_db 1%nat
           {| u_username := "testuser"; u_email := "test@example.com";
              u_hashed_password := "hash"; u_balance := real_of_Z 10000;
              u_created_at := 0 |}).
  - discriminate.
  - discriminate.
  - discriminate.
  - reflexivity.
  - right. reflexivity.
Defined.

(** A login never writes, and it answers an unknown name and a wrong
    password with the same status 401 and the same detail. *)
Theorem login_rejects strip verify_password generate_token request_data s :
  snd (login strip verify_password generate_token request_data s) = s ∧
  (match get_user_by_username (strip (lq_username request_data)) s with
   | None => True
   | Some (_, user) =>
       verify_password (lq_password request_data) (u_hashed_password user) = Ok false
   end →
   fst (login strip verify_password generate_token request_data s)
   = Raise (HTTPException 401 "Incorrect username or password")).
Proof.
  unfold login. split.
  - destruct (get_user_by_username _ s) as [[uid u]|]; [|done].
    by destruct (verify_password _ _) as [[]|[]].
  - destruct (get_user_by_username _ s) as [[uid u]|]; [|done].
    by intros ->.
Qed.

Lemma login_rejects_witness :
  fst (login id demo_verify demo_token
         {| lq_username := "nobody"; lq_password := "secret" |} demo_db)
  = Raise (HTTPException 401 "Incorrect username or password").
Proof.
  apply (proj2 (login_rejects id demo_verify demo_token
                  {| lq_username := "nobody"; lq_password := "secret" |} demo_db)).
  vm_compute. exact I.
Defined.



(** ** Bootstrap *)

Lemma insert_default_resource_keeps now d s :
  resources_bounded s →
  let s' := insert_default_resource now d s in
  resources_bounded s' ∧
  (∀ k r, resources s !! k = Some r → resources s' !! k = Some r) ∧
  (∃ k r, resources s' !! k = Some r ∧ r_symbol r = d_symbol d) ∧
  (symbols_unique s → symbols_unique s') ∧
  users s' = users s ∧ users_seq s' = users_seq s ∧
  positions s' = positions s ∧ transactions s' = transactions s.
Proof.
  intros Hb. cbv zeta. unfold insert_default_resource.
  pose proof (get_resource_by_symbol_cases (d_symbol d) s) as Hspec.
  destruct (get_resource_by_symbol (d_symbol d) s) as [[k r]|].
  { destruct Hspec. repeat split; eauto. }
  assert (Hfresh : resources s !! S (resources_seq s) = None).
  { apply eq_None_not_Some. intros H%Hb. lia. }
  cbn. repeat split; try done.
  - intros k [r Hk]. cbn in Hk. apply lookup_insert_Some in Hk as [[<- _]|[_ Hk]]; cbn; [lia|].
    specialize (Hb k (mk_is_Some _ _ Hk)). lia.
  - intros k r Hk. rewrite lookup_insert_ne; [done|]. intros <-. congruence.
  - eexists _, _. split; [apply lookup_insert_eq|done].
  - intros Huniq k1 r1 k2 r2. cbn. rewrite !lookup_insert_Some.
    intros [[<- <-]|[Hne1 H1]] [[<- <-]|[Hne2 H2]]; cbn; intros Hsym; try done.
    + by destruct (Hspec _ _ H2).
    + by destruct (Hspec _ _ H1).
    + by eapply Huniq.
Qed.

Lemma insert_defaults_keep now ds : ∀ s,
  resources_bounded s →
  let s' := foldl (λ s d, insert_default_resource now d s) s ds in
  resources_bounded s' ∧
  (∀ k r, resources s !! k = Some r → resources s' !! k = Some r) ∧
  (∀ d, d ∈ ds → ∃ k r, resources s' !! k = Some r ∧ r_symbol r = d_symbol d) ∧
  (symbols_unique s → symbols_unique s') ∧
  users s' = users s ∧ users_seq s' = users_seq s ∧
  positions s' = positions s ∧ transactions s' = transactions s.
Proof.
  induction ds as [|d ds IH]; intros s Hb; cbn.
  { repeat split; try done. by intros d ?%elem_of_nil. }
  destruct (insert_default_resource_keeps now d s Hb)
    as (Hb1 & Hkeep1 & Hd & Hu1 & Hus1 & Hseq1 & Hp1 & Ht1).
  destruct (IH _ Hb1) as (Hb2 & Hkeep2 & Hds & Hu2 & Hus2 & Hseq2 & Hp2 & Ht2).
  repeat split; try congruence; eauto.
  intros d' [->|Hd']%elem_of_cons; [|by apply Hds].
  destruct Hd as (k & r & Hk & Hsym). eauto.
Qed.

Lemma insert_defaults_present now ds : ∀ s,
  (∀ d, d ∈ ds → ∃ k r, resources s !! k = Some r ∧ r_symbol r = d_symbol d) →
  foldl (λ s d, insert_default_resource now d s) s ds = s.
Proof.
  induction ds as [|d ds IH]; intros s Hall; [done|]. cbn.
  assert (Hd : insert_default_resource now d s = s).
  { unfold insert_default_resource.
    destruct (get_resource_by_symbol (d_symbol d) s) eqn:Hfind; [done|].
    rewrite get_resource_by_symbol_None in Hfind.
    destruct (Hall d) as (k & r & Hk & Hsym); [apply elem_of_cons; by left|].
    by destruct (Hfind _ _ Hk). }
  rewrite Hd. apply IH. intros d' Hd'. apply Hall, elem_of_cons. by right.
Qed.

(** The bootstrap of the resources can run at every start: it keeps every
    row that is there, with its price; after it each of the five default
    symbols has a row; it leaves users, positions and transactions alone;
    it keeps symbols unique; and running it again changes nothing. *)
Theorem create_default_resources_idempotent now now' s :
  resources_bounded s →
  let s' := create_default_resources now s in
  (∀ k r, resources s !! k = Some r → resources s' !! k = Some r) ∧
  (∀ d, d ∈ default_resources →
        ∃ k r, get_resource_by_symbol (d_symbol d) s' = Some (k, r)) ∧
  (symbols_unique s → symbols_unique s') ∧
  users s' = users s ∧ positions s' = positions s ∧ transactions s' = transactions s ∧
  create_default_resources now' s' = s'.
Proof.
  intros Hb. cbv zeta. unfold create_default_resources.
  destruct (insert_defaults_keep now default_resources s Hb)
    as (Hb' & Hkeep & Hall & Huniq & Hus & _ & Hp & Ht).
  repeat split; try done.
  - intros d Hd. destruct (Hall d Hd) as (k & r & Hk & Hsym).
    destruct (get_resource_by_symbol (d_symbol d) _) as [[k' r']|] eqn:Hfind; [eauto|].
    rewrite get_resource_by_symbol_None in Hfind. by destruct (Hfind _ _ Hk).
  - by apply insert_defaults_present.
Qed.

Lemma resources_bounded_empty : resources_bounded empty_db.
Proof. intros k [r Hk]. cbn in Hk. by rewrite lookup_empty in Hk. Qed.

Lemma create_default_resources_idempotent_witness :
  let s' := create_default_resources 0 empty_db in
  (∀ k r, resources empty_db !! k = Some r → resources s' !! k = Some r) ∧
  (∀ d, d ∈ default_resources →
        ∃ k r, get_resource_by_symbol (d_symbol d) s' = Some (k, r)) ∧
  (symbols_unique empty_db → symbols_unique s') ∧
  users s' = users empty_db ∧ positions s' = positions empty_db ∧
  transactions s' = transactions empty_db ∧
  create_default_resources 9 s' = s'.
Proof.
  apply (create_default_resources_idempotent 0 9 empty_db). apply resources_bounded_empty.
Defined.

Lemma create_default_resources_users now s :
  users (create_default_resources now s) = users s ∧
  users_seq (create_default_resources now s) = users_seq s.
Proof.
  unfold create_default_resources. generalize default_resources. intros ds. revert s.
  induction ds as [|d ds IH]; intros s; [done|]. cbn.
  destruct (IH (insert_default_resource now d s)) as [-> ->].
  unfold insert_default_resource. by destruct (get_resource_by_symbol _ s).
Qed.

Lemma create_test_user_cases get_password_hash now s :
  let s' := create_test_user get_password_hash now s in
  resources s' = resources s ∧ resources_seq s' = resources_seq s ∧
  (s' = s ∧ (∀ get_password_hash' now', create_test_user get_password_hash' now' s = s) ∨
   get_user_by_username "testuser" s = None ∧
   create_user now "testuser" "test@example.com" (get_password_hash "password123") s
   = (Ok (S (users_seq s)), s')).
Proof.
  cbv zeta. unfold create_test_user.
  destruct (get_user_by_username "testuser" s) eqn:Hfind; [by auto|].
  unfold create_user. case_bool_decide; cbn; by auto.
Qed.

(** The bootstrap can run at every start: on a store that [init_database]
    left, a second [init_database] changes nothing, whether the test user
    was created, was there already, or was refused. *)
Theorem init_database_idempotent get_password_hash get_password_hash' now now' s :
  resources_bounded s →
  let s' := init_database get_password_hash now s in
  init_database get_password_hash' now' s' = s'.
Proof.
  intros Hb. cbv zeta. unfold init_database.
  destruct (insert_defaults_keep now default_resources s Hb) as (_ & _ & Hall & _).
  fold (create_default_resources now s) in Hall.
  set (s1 := create_default_resources now s) in *.
  destruct (create_test_user_cases get_password_hash now s1) as (Hr & _ & Hcases).
  set (s2 := create_test_user get_password_hash now s1) in *.
  assert (Hres : create_default_resources now' s2 = s2).
  { apply insert_defaults_present. intros d Hd. rewrite Hr. by apply Hall. }
  rewrite Hres. destruct Hcases as [[Hsame Hagain]|[Hnone Hcreate]].
  - rewrite Hsame. apply Hagain.
  - destruct (create_user_lookup _ _ _ _ _ _ _ Hcreate) as (_ & _ & Hfind).
    unfold create_test_user at 1. by rewrite Hfind.
Qed.

Lemma init_database_idempotent_witness :
  init_database demo_hash 5 (init_database demo_hash 0 empty_db)
  = init_database demo_hash 0 empty_db.
Proof.
  apply (init_database_idempotent demo_hash demo_hash 0 5 empty_db).
  apply resources_bounded_empty.
Defined.

(** The test account works: on a store where neither the name [testuser]
    nor the email [test@example.com] is taken, after [init_database] a
    login as [testuser] with [password123] succeeds, with the balance
    10000, whenever the password check accepts the hash of the password. *)
Theorem init_database_test_login strip get_password_hash verify_password generate_token
    now s :
  (∀ k u, users s !! k = Some u →
          u_username u ≠ "testuser" ∧ u_email u ≠ "test@example.com") →
  strip "testuser" = "testuser" →
  verify_password "password123" (get_password_hash "password123") = Ok true →
  let s' := init_database get_password_hash now s in
  login strip verify_password generate_token
    {| lq_username := "testuser"; lq_password := "password123" |} s'
  = (Ok {| lr_message := "Login successful";
           lr_access_token := generate_token (S (users_seq s)) "testuser";
           lr_token_type := "bearer";
           lr_id := S (users_seq s); lr_username := "testuser";
           lr_email := "test@example.com"; lr_balance := real_of_Z 10000 |}, s').
Proof.
  intros Hfree Hstrip Hverify. cbv zeta. unfold init_database.
  destruct (create_default_resources_users now s) as [Hus Hseq].
  set (s1 := create_default_resources now s) in *.
  assert (Hcreate : create_user now "testuser" "test@example.com"
                      (get_password_hash "password123") s1
                    = (Ok (S (users_seq s)),
                       snd (create_user now "testuser" "test@example.com"
                              (get_password_hash "password123") s1))).
  { unfold create_user. rewrite bool_decide_eq_false_2; [by rewrite Hseq|].
    intros (k & u & Hk & Hdup)%map_Exists_lookup. rewrite Hus in Hk.
    destruct (Hfree _ _ Hk). by destruct Hdup. }
  assert (Hnone : get_user_by_username "testuser" s1 = None).
  { apply get_user_by_username_None. intros k u Hk. rewrite Hus in Hk.
    by destruct (Hfree _ _ Hk). }
  unfold create_test_user. rewrite Hnone, Hcreate. cbn [snd].
  destruct (create_user_lookup _ _ _ _ _ _ _ Hcreate) as (_ & _ & Hfind).
  unfold login. cbn [lq_username lq_password]. rewrite Hstrip, Hfind. cbn.
  by rewrite Hverify.
Qed.

Lemma init_database_test_login_witness :
  login id demo_verify demo_token
    {| lq_username := "testuser"; lq_password := "password123" |}
    (init_database demo_hash 0 empty_db)
  = (Ok {| lr_message := "Login successful";
           lr_access_token := demo_token 1 "testuser";
           lr_token_type := "bearer";
           lr_id := 1; lr_username := "testuser";
           lr_email := "test@example.com"; lr_balance := real_of_Z 10000 |},
     init_database demo_hash 0 empty_db).
Proof.
  apply (init_database_test_login id demo_hash demo_verify demo_token 0 empty_db).
  - intros k u Hk. cbn in Hk. by rewrite lookup_empty in Hk.
  - reflexivity.
  - reflexivity.
Defined.

(** The bootstrap does not report a refused test user: when the email
    [test@example.com] belongs to a user of another name, [init_database]
    creates no test user and leaves the users as they were, and a login as
    [testuser] is refused with status 401. *)
Theorem init_database_email_taken strip get_password_hash verify_password generate_token
    now s k u :
  users s !! k = Some u → u_email u = "test@example.com" →
  (∀ k u, users s !! k = Some u → u_username u ≠ "testuser") →
  strip "testuser" = "testuser" →
  let s' := init_database get_password_hash now s in
  users s' = users s ∧
  fst (login strip verify_password generate_token
         {| lq_username := "testuser"; lq_password := "password123" |} s')
  = Raise (HTTPException 401 "Incorrect username or password").
Proof.
  intros Hk Hemail Hfree Hstrip. cbv zeta. unfold init_database.
  destruct (create_default_resources_users now s) as [Hus Hseq].
  set (s1 := create_default_resources now s) in *.
  assert (Hnone : get_user_by_username "testuser" s1 = None).
  { apply get_user_by_username_None. intros k' u' Hk'. rewrite Hus in Hk'. by eapply Hfree. }
  assert (Hsame : create_test_user get_password_hash now s1 = s1).
  { unfold create_test_user. rewrite Hnone.
    rewrite (create_user_duplicate _ _ _ _ _ k u); [done|by rewrite Hus|by right]. }
  rewrite Hsame. split; [done|].
  unfold login. cbn [lq_username]. by rewrite Hstrip, Hnone.
Qed.

Lemma init_database_email_taken_witness :
  let s := snd (create_user 0 "carol" "test@example.com" "h" empty_db) in
  users (init_database demo_hash 1 s) = users s ∧
  fst (login id demo_verify demo_token
         {| lq_username := "testuser"; lq_password := "password123" |}
         (init_database demo_hash 1 s))
  = Raise (HTTPException 401 "Incorrect username or password").
Proof.
  apply (init_database_email_taken id demo_hash demo_verify demo_token 1
           (snd (create_user 0 "carol" "test@example.com" "h" empty_db)) 1%nat
           {| u_username := "carol"; u_email := "test@example.com";
              u_hashed_password := "h"; u_balance := real_of_Z 10000;
              u_created_at := 0 |}).
  - reflexivity.
  - reflexivity.
  - intros k u Hk.
    change (users _) with
      (<[1%nat := {| u_username := "carol"; u_email := "test@example.com";
                     u_hashed_password := "h"; u_balance := real_of_Z 10000;
                     u_created_at := 0 |}]> (∅ : gmap nat user_row)) in Hk.
    apply lookup_insert_Some in Hk as [[_ <-]|[_ Hk]];
      [discriminate|by rewrite lookup_empty in Hk].
  - reflexivity.
Defined.

(** ** The price job *)

Lemma update_resource_prices_fold uniform clock l : ∀ n s,
  NoDup l.*1 →
  (∀ k r, (k, r) ∈ l → resources s !! k = Some r) →
  let acc :=
    foldl (λ acc resource,
             (S (fst acc),
              update_resource_price (clock (fst acc)) (fst resource)
                (r_current_price (snd resource) * (1 + uniform (fst acc))) (snd acc)))
          (n, s) l in
  fst acc = (n + length l)%nat ∧
  users (snd acc) = users s ∧ users_seq (snd acc) = users_seq s ∧
  positions (snd acc) = positions s ∧ transactions (snd acc) = transactions s ∧
  resources_seq (snd acc) = resources_seq s ∧
  (∀ k, k ∉ l.*1 → resources (snd acc) !! k = resources s !! k) ∧
  (∀ k r, (k, r) ∈ l →
     ∃ i, (n ≤ i < n + length l)%nat ∧
          resources (snd acc) !! k
          = Some (with_price r (r_current_price r * (1 + uniform i)) (clock i))).
Proof.
  induction l as [|[k0 r0] l IH]; intros n s Hnd Hl; cbn [foldl fst snd].
  { cbn. repeat split; try done; try lia. by intros k r ?%elem_of_nil. }
  cbn in Hnd. apply NoDup_cons in Hnd as [Hk0 Hnd].
  assert (Hs1 : update_resource_price (clock n) k0 (r_current_price r0 * (1 + uniform n)) s
                = set_resources
                    (insert k0 (with_price r0 (r_current_price r0 * (1 + uniform n)) (clock n)))
                    s).
  { unfold update_resource_price. rewrite (Hl k0 r0); [done|]. apply elem_of_cons. by left. }
  rewrite Hs1.
  match goal with |- context [foldl _ (S n, ?s1) l] => set (s1' := s1) end.
  destruct (IH (S n) s1' Hnd) as (Hn & Hus & Hseq & Hp & Ht & Hrs & Hout & Hin).
  { intros k r Hkr. unfold s1'. cbn. rewrite lookup_insert_ne.
    - apply Hl, elem_of_cons. by right.
    - intros <-. apply Hk0, list_elem_of_fmap. by exists (k0, r). }
  cbv zeta. repeat split; try done.
  - rewrite Hn. cbn. lia.
  - intros k Hk. apply not_elem_of_cons in Hk as [Hne Hk]. rewrite (Hout k Hk).
    unfold s1'. cbn. by rewrite lookup_insert_ne.
  - intros k r [[= -> ->]|Hkr]%elem_of_cons.
    + exists n. split; [cbn; lia|]. rewrite (Hout k0 Hk0). unfold s1'. cbn.
      by rewrite lookup_insert_eq.
    + destruct (Hin k r Hkr) as (i & Hi & Hlook). exists i.
      split; [cbn; lia|done].
Qed.

Lemma price_change_bounds (price change : real) :
  - Q2Qc (1 # 20) ≤ change → change ≤ Q2Qc (1 # 20) → 0 < price →
  0 < price * (1 + change) ∧
  price * Q2Qc (19 # 20) ≤ price * (1 + change) ∧
  price * (1 + change) ≤ price * Q2Qc (21 # 20).
Proof.
  intros Hlo Hhi Hprice.
  assert (H0 : 0 < 1 + change) by (clear Hprice; real_lra).
  assert (H1 : Q2Qc (19 # 20) ≤ 1 + change) by (clear Hprice H0; real_lra).
  assert (H2 : 1 + change ≤ Q2Qc (21 # 20)) by (clear Hprice H0 H1; real_lra).
  split; [by apply Qcmult_pos_pos|].
  split; by apply Qcmult_le_mono_pos_l.
Qed.

(** The price job moves every price once, by at most five percent, and
    touches nothing else. With draws between -0.05 and 0.05 the count of
    the response is the number of resources; users, positions and
    transactions are as before; no resource appears or disappears; and each
    resource keeps its symbol, name and volatility, with a new price that is
    its old price times one plus a draw of the run, so that a positive
    price stays positive, between 0.95 and 1.05 times the old one. *)
Theorem update_resource_prices_bounded uniform clock s :
  (∀ i, - Q2Qc (1 # 20) ≤ uniform i ∧ uniform i ≤ Q2Qc (1 # 20)) →
  let count := fst (update_resource_prices uniform clock s) in
  let s' := snd (update_resource_prices uniform clock s) in
  count = size (resources s) ∧
  users s' = users s ∧ positions s' = positions s ∧ transactions s' = transactions s ∧
  resources_seq s' = resources_seq s ∧
  (∀ k, resources s !! k = None → resources s' !! k = None) ∧
  (∀ k r, resources s !! k = Some r →
     ∃ i, (i < count)%nat ∧
          resources s' !! k
          = Some (with_price r (r_current_price r * (1 + uniform i)) (clock i)) ∧
          (0 < r_current_price r →
           0 < r_current_price r * (1 + uniform i) ∧
           r_current_price r * Q2Qc (19 # 20) ≤ r_current_price r * (1 + uniform i) ∧
           r_current_price r * (1 + uniform i) ≤ r_current_price r * Q2Qc (21 # 20))).
Proof.
  intros Hdraw. cbv zeta. unfold update_resource_prices, get_all_resources.
  destruct (update_resource_prices_fold uniform clock (map_to_list (resources s)) 0 s)
    as (Hn & Hus & _ & Hp & Ht & Hrs & Hout & Hin).
  { apply NoDup_fst_map_to_list. }
  { intros k r. apply elem_of_map_to_list. }
  cbv zeta in Hn, Hus, Hp, Ht, Hrs, Hout, Hin.
  rewrite Hn. cbn [Nat.add]. rewrite length_map_to_list.
  repeat split; try done.
  - intros k Hk. rewrite Hout; [done|].
    intros ([k' r] & -> & Hkr%elem_of_map_to_list)%list_elem_of_fmap. cbn in Hk. congruence.
  - intros k r Hk. destruct (Hin k r) as (i & Hi & Hlook); [by apply elem_of_map_to_list|].
    exists i. rewrite length_map_to_list in Hi. split; [lia|]. split; [done|].
    intros Hprice. destruct (Hdraw i). by apply price_change_bounds.
Qed.

Lemma update_resource_prices_bounded_witness :
  let uniform := λ _ : nat, Q2Qc (1 # 50) in
  let count := fst (update_resource_prices uniform id demo_db) in
  let s' := snd (update_resource_prices uniform id demo_db) in
  count = size (resources demo_db) ∧
  users s' = users demo_db ∧ positions s' = positions demo_db ∧
  transactions s' = transactions demo_db ∧
  resources_seq s' = resources_seq demo_db ∧
  (∀ k, resources demo_db !! k = None → resources s' !! k = None) ∧
  (∀ k r, resources demo_db !! k = Some r →
     ∃ i, (i < count)%nat ∧
          resources s' !! k
          = Some (with_price r (r_current_price r * (1 + uniform i)) (id i)) ∧
          (0 < r_current_price r →
           0 < r_current_price r * (1 + uniform i) ∧
           r_current_price r * Q2Qc (19 # 20) ≤ r_current_price r * (1 + uniform i) ∧
           r_current_price r * (1 + uniform i) ≤ r_current_price r * Q2Qc (21 # 20))).
Proof.
  apply (update_resource_prices_bounded (λ _ : nat, Q2Qc (1 # 50)) id demo_db).
  intros _. split; by vm_compute.
Defined.

(** ** The holdings *)





(** ** The bearer token *)

Lemma split_no_sep sep t :
  sep ∉ list_ascii_of_string t → split sep t = [t].
Proof.
  induction t as [|c t IH]; [done|]. cbn [split list_ascii_of_string].
  intros [Hc Ht]%not_elem_of_cons.
  rewrite decide_False by congruence. by rewrite (IH Ht).
Qed.

Lemma split_app sep t rest :
  sep ∉ list_ascii_of_string t →
  split sep (t +:+ String sep rest) = t :: split sep rest.
Proof.
  induction t as [|c t IH]; cbn [list_ascii_of_string].
  - intros _. change (split sep (String sep rest) = "" :: split sep rest).
    cbn [split]. by rewrite decide_True.
  - intros [Hc Ht]%not_elem_of_cons.
    change (split sep (String c (t +:+ String sep rest)) = String c t :: split sep rest).
    cbn [split]. rewrite decide_False by congruence. by rewrite (IH Ht).
Qed.

Lemma split_nonempty sep s : split sep s ≠ [].
Proof.
  induction s as [|c s IH]; [done|]. cbn [split]. destruct (decide (c = sep)); [done|].
  by destruct (split sep s).
Qed.

Lemma prefix_bearer t : String.prefix "Bearer " ("Bearer " +:+ t) = true.
Proof. change (String.prefix "" t = true). by destruct t. Qed.

(** The token of a request is what follows [Bearer ] up to the next space:
    a header [Bearer t] with no space in [t] gives [t] back, anything after
    a further space is dropped, and a header that is missing, empty or does
    not start with [Bearer ] (in this case and with the space) gives no
    token. *)
Theorem get_token_from_request_bearer token :
  " "%char ∉ list_ascii_of_string token →
  get_token_from_request (Some ("Bearer " +:+ token)) = Some token ∧
  (∀ rest, get_token_from_request (Some ("Bearer " +:+ token +:+ " " +:+ rest))
           = Some token) ∧
  get_token_from_request (Some ("bearer " +:+ token)) = None ∧
  get_token_from_request (Some ("Bearer" +:+ token)) = None ∧
  get_token_from_request (Some "") = None ∧ get_token_from_request None = None.
Proof.
  intros Hsp.
  assert (Hb : " "%char ∉ list_ascii_of_string "Bearer").
  { cbn. rewrite !not_elem_of_cons. repeat split; try done. apply not_elem_of_nil. }
  split; [|split; [|split; [done|split; [|done]]]].
  - unfold get_token_from_request. rewrite bool_decide_eq_false_2 by done.
    rewrite prefix_bearer.
    change ("Bearer " +:+ token) with ("Bearer" +:+ String " " token).
    rewrite (split_app _ _ _ Hb). cbn. by rewrite (split_no_sep _ _ Hsp).
  - intros rest. unfold get_token_from_request. rewrite bool_decide_eq_false_2 by done.
    rewrite prefix_bearer.
    change ("Bearer " +:+ token +:+ " " +:+ rest)
      with ("Bearer" +:+ String " " (token +:+ String " " rest)).
    rewrite (split_app _ _ _ Hb). cbn. by rewrite (split_app _ _ _ Hsp).
  - unfold get_token_from_request. rewrite bool_decide_eq_false_2 by done.
    destruct token as [|c token]; [done|].
    apply not_elem_of_cons in Hsp as [Hc _].
    change (String.prefix "Bearer " ("Bearer" +:+ String c token))
      with (if Ascii.ascii_dec " " c then String.prefix "" token else false).
    by destruct (Ascii.ascii_dec " " c).
Qed.

Lemma get_token_from_request_bearer_witness :
  get_token_from_request (Some "Bearer abc.def.ghi") = Some "abc.def.ghi" ∧
  (∀ rest, get_token_from_request (Some ("Bearer abc.def.ghi " +:+ rest))
           = Some "abc.def.ghi") ∧
  get_token_from_request (Some "bearer abc.def.ghi") = None ∧
  get_token_from_request (Some "Bearerabc.def.ghi") = None ∧
  get_token_from_request (Some "") = None ∧ get_token_from_request None = None.
Proof.
  apply (get_token_from_request_bearer "abc.def.ghi").
  cbn. rewrite !not_elem_of_cons. repeat split; try done. apply not_elem_of_nil.
Defined.
